(** * Aurora executor: task_info.py

    A shallow embedding of
    [src/python/twitter/aurora/executor/common/task_info.py]: the
    deserialisation of an [AssignedTask], the recovery of a
    [MesosTaskInstance] from its thermos configuration, and the
    resolution of the port map handed to the thermos runner.

    Python exceptions are values of type [exn]; a call that may raise
    returns a [result].  Dictionaries that the code mutates live in an
    object store and are passed by reference. *)

From Stdlib Require Import ZArith Ascii String List.
From stdpp Require Import base option strings list gmap fin_maps.

Local Open Scope string_scope.
Local Open Scope Z_scope.

(** ** Python exceptions and results *)

(** The exception classes that the module raises, catches, or may see
    propagate from a callee.  [TTransportException] and
    [TProtocolException] are the thrift subclasses of [TException];
    [UnicodeError] is a builtin subclass of [ValueError];
    [RecursionError] is the subclass of [RuntimeError] that the
    interpreter raises when the recursion limit is reached. *)
Inductive exn_class :=
  | Exception
  | EOFError
  | TypeError
  | ValueError
  | UnicodeError
  | KeyError
  | RuntimeError
  | RecursionError
  | TException
  | TTransportException
  | TProtocolException.

#[global] Instance exn_class_eq_dec : EqDecision exn_class.
Proof. solve_decision. Defined.

(** The direct base class; [Exception] is the root of the hierarchy
    modelled here. *)
Definition base_class (c : exn_class) : option exn_class :=
  match c with
  | Exception => None
  | UnicodeError => Some ValueError
  | RecursionError => Some RuntimeError
  | TTransportException | TProtocolException => Some TException
  | EOFError | TypeError | ValueError | KeyError | RuntimeError | TException =>
      Some Exception
  end.

(** [issubclass c d]: the hierarchy has depth two, so two steps up the
    chain of base classes reach the root. *)
Definition issubclass (c d : exn_class) : bool :=
  bool_decide (c = d)
  || match base_class c with
     | None => false
     | Some b =>
         bool_decide (b = d)
         || match base_class b with
            | None => false
            | Some r => bool_decide (r = d)
            end
     end.

(** An exception instance: its class and the text that [str(e)], and
    so ['%s' % e], produces. *)
Record exn := PyExn { exn_type : exn_class; exn_str : string }.

#[global] Instance exn_eq_dec : EqDecision exn.
Proof. solve_decision. Defined.

(** [except (c1, ..., cn)]: does the handler catch [e]? *)
Definition catches (handlers : list exn_class) (e : exn) : bool :=
  existsb (issubclass (exn_type e)) handlers.

(** The outcome of a call: [inl e] when it raised [e], [inr v] when it
    returned [v]. *)
Definition result (A : Type) : Type := exn + A.

Definition raise {A} (e : exn) : result A := inl e.

#[global] Instance result_ret : MRet result := λ A v, inr v.
#[global] Instance result_bind : MBind result := λ A B k m,
  match m with
  | inl e => inl e
  | inr v => k v
  end.

(** [try: body except handlers as e: handler e]. *)
Definition try_except {A} (body : result A) (handlers : list exn_class)
    (handler : exn → result A) : result A :=
  match body with
  | inl e => if catches handlers e then handler e else inl e
  | inr v => inr v
  end.

(** ** The assignment decoder *)

Section decoder.

(** The thrift record [AssignedTask] comes from generated code; only
    the two fields read by this module are kept. *)
Context {TaskConfig : Type}.

Record AssignedTask := mkAssignedTask {
  task : TaskConfig;
  instanceId : Z
}.

(** The launchTask protocol buffer; [data] is the serialised
    [AssignedTask]. *)
Record TaskInfo := mkTaskInfo { data : list Byte.byte }.

(** [thrift.TSerialization.deserialize(AssignedTask(), bytes)]. *)
Variable thrift_deserialize : list Byte.byte → result AssignedTask.

Definition assigned_task_from_mesos_task (t : TaskInfo) : result AssignedTask :=
  try_except (thrift_deserialize (data t)) [EOFError; TException]
    (λ e, raise (PyExn ValueError ("Could not deserialize task! " ++ exn_str e))).

End decoder.

Arguments AssignedTask : clear implicits.

(** ** Parsed JSON *)

(** What [json.loads] returns: [None], a [bool], an [int], a [float]
    (kept as its literal), a string, a [list] or a [dict]. *)
#[local] Unset Elimination Schemes.
Inductive json :=
  | JNull
  | JBool (b : bool)
  | JInt (z : Z)
  | JFloat (literal : string)
  | JStr (s : string)
  | JList (items : list json)
  | JDict (members : list (string * json)).
#[local] Set Elimination Schemes.

(** [s in t] on strings is the substring test. *)
Definition str_contains (s t : string) : bool :=
  match String.index 0 s t with
  | Some _ => true
  | None => false
  end.

(** [key in json_blob] for a string [key]: key membership on a [dict],
    element membership on a [list], the substring test on a string, and
    a [TypeError] on the values that are not iterable. *)
Definition py_in (key : string) (json_blob : json) : result bool :=
  match json_blob with
  | JDict members => mret (bool_decide (key ∈ members.*1))
  | JList items =>
      mret (existsb (λ item, match item with
                            | JStr s => bool_decide (s = key)
                            | _ => false
                            end) items)
  | JStr s => mret (str_contains key s)
  | JNull => raise (PyExn TypeError "argument of type 'NoneType' is not iterable")
  | JBool _ => raise (PyExn TypeError "argument of type 'bool' is not iterable")
  | JInt _ => raise (PyExn TypeError "argument of type 'int' is not iterable")
  | JFloat _ => raise (PyExn TypeError "argument of type 'float' is not iterable")
  end.

(** ** Collaborators of the resolver *)

(** The operations of [pystachio.Ref] that the module uses.
    [Ref_subscope ref1 ref2] is [Ref.subscope(ref1, ref2)], which
    returns a [Ref] or [None]; the three addresses that the module
    passes to [Ref_from_address] are literals. *)
Class RefOps (Ref : Type) := {
  Ref_from_address : string → Ref;
  Ref_eq : Ref → Ref → bool;
  Ref_subscope : Ref → Ref → option Ref;
  Ref_str : Ref → string
}.

(** The functions imported from [twitter.aurora.config] and [json]. *)
Class Config (TaskConfig MesosJob MesosTaskInstance Ref : Type) := {
  resolve_thermos_config : TaskConfig → option string;
  json_loads : string → result json;
  MesosTaskInstance_json_loads : string → result MesosTaskInstance;
  MesosJob_json_loads : string → result MesosJob;
  task_instance_from_job : MesosJob → Z → result (MesosTaskInstance * list Ref)
}.

(** Truth value of an optional object: [None] is false, an object of a
    class without [__bool__] or [__len__] is true. *)
Definition truthy {A} (o : option A) : bool :=
  match o with
  | Some _ => true
  | None => false
  end.

(** ** The task configuration resolver *)

Section resolver.

Context {TaskConfig MesosJob MesosTaskInstance Ref : Type}.
Context `{!RefOps Ref, !Config TaskConfig MesosJob MesosTaskInstance Ref}.

(** Lines 24 to 34.  Without a thermos configuration [json.loads] is
    given [None] and raises the [TypeError] that line 29 catches. *)
Definition mesos_job_from_assigned_task (assigned_task : AssignedTask TaskConfig)
    : result (option MesosJob) :=
  match resolve_thermos_config (task assigned_task) with
  | None => mret None
  | Some thermos_task =>
      match json_loads thermos_task with
      | inl e => if catches [TypeError; ValueError] e then mret None else raise e
      | inr json_blob =>
          has_instance ← py_in "instance" json_blob;
          if (has_instance : bool) then mret None
          else job ← MesosJob_json_loads thermos_task; mret (Some job)
      end
  end.

(** The error raised at line 74: every element of [refs] is printed. *)
Definition unexpected_unbound_refs (refs : list Ref) : exn :=
  PyExn ValueError
    ("Unexpected unbound refs: " ++ String.concat " " (map Ref_str refs)).

(** The [for ref in refs] loop of lines 58 to 74, run on the suffix
    [rest] of [refs]. *)
Fixpoint check_refs (refs rest : list Ref) : result unit :=
  match rest with
  | [] => mret tt
  | ref :: rest =>
      if Ref_eq ref (Ref_from_address "thermos.task_id") then check_refs refs rest
      else if truthy (Ref_subscope (Ref_from_address "thermos.ports") ref)
      then check_refs refs rest
      else if Ref_eq ref (Ref_from_address "thermos.user") then check_refs refs rest
      else raise (unexpected_unbound_refs refs)
  end.

Definition mesos_task_instance_from_assigned_task
    (assigned_task : AssignedTask TaskConfig) : result MesosTaskInstance :=
  let thermos_task := resolve_thermos_config (task assigned_task) in
  match thermos_task with
  | None | Some "" =>
      raise (PyExn ValueError "Task did not have a thermos config!")
  | Some thermos_task =>
      json_blob ← try_except (json_loads thermos_task) [TypeError; ValueError]
        (λ e, raise (PyExn ValueError
                       ("Could not deserialize thermos config: " ++ exn_str e)));
      has_instance ← py_in "instance" json_blob;
      if (has_instance : bool) then MesosTaskInstance_json_loads thermos_task
      else
        job ← MesosJob_json_loads thermos_task;
        '(mti, refs) ← task_instance_from_job job (instanceId assigned_task);
        check_refs refs refs;;
        mret mti
  end.

End resolver.

(** ** The object store *)

(** A port is an [int] or a [str] (the name of another port). *)
Inductive port_value :=
  | PInt (n : Z)
  | PStr (s : string).

#[global] Instance port_value_eq_dec : EqDecision port_value.
Proof. solve_decision. Defined.

(** [isinstance(port, int)]. *)
Definition isinstance_int (port : port_value) : bool :=
  match port with
  | PInt _ => true
  | PStr _ => false
  end.

(** Objects are named by references. *)
Abbreviation loc := positive.

(** The state that [resolve_ports] runs in: the dictionaries reachable
    from its caller, by reference, and the lines written to the log at
    warning level. *)
Record world := World {
  objs : gmap loc (gmap string port_value);
  warnings : list string
}.

(** A computation that reads and writes the store and may raise.  The
    store is returned in both cases: what was mutated before a raise
    stays mutated. *)
Definition M (A : Type) : Type := world → result A * world.

#[global] Instance M_ret : MRet M := λ A v w, (inr v, w).
#[global] Instance M_bind : MBind M := λ A B k m w,
  match m w with
  | (inl e, w') => (inl e, w')
  | (inr v, w') => k v w'
  end.

Definition lift {A} (r : result A) : M A := λ w, (r, w).

(** Allocation of a new [dict] holding [d]. *)
Definition new_dict (d : gmap string port_value) : M loc := λ w,
  let l := fresh (dom (objs w)) in
  (inr l, World (<[l := d]> (objs w)) (warnings w)).

(** The entries of the dictionary named by [l].  A reference that names
    no object cannot be built in Python; the store reports it. *)
Definition read_dict (l : loc) : M (gmap string port_value) := λ w,
  match objs w !! l with
  | Some d => (inr d, w)
  | None => (inl (PyExn Exception "dangling reference"), w)
  end.

(** The dictionary named by [l] now holds the entries [d]. *)
Definition write_dict (l : loc) (d : gmap string port_value) : M unit := λ w,
  (inr (), World (<[l := d]> (objs w)) (warnings w)).

(** [target.update(other)]: every entry of [other] is written into
    [target], in place; an entry of [target] under the same name is
    overwritten. *)
Definition dict_update (target other : loc) : M unit :=
  new ← read_dict other;
  old ← read_dict target;
  write_dict target (new ∪ old).

(** [d.items()].  A [dict] yields its items in an order of its own,
    which is not modelled: [map_to_list] fixes one order for each set
    of names.  What is stated of the log below is membership and
    number, never order. *)
Definition dict_items (l : loc) : M (list (string * port_value)) :=
  d ← read_dict l; mret (map_to_list d).

(** [log.warning(msg)]. *)
Definition log_warning (msg : string) : M unit := λ w,
  (inr (), World (objs w) (warnings w ++ [msg])).

(** [for x in xs: body x]. *)
Fixpoint for_each {A} (xs : list A) (body : A → M unit) : M unit :=
  match xs with
  | [] => mret ()
  | x :: xs => body x;; for_each xs body
  end.

(** ** The port binder *)

(** The part of the [MesosTaskInstance] schema that [resolve_ports]
    reads.  [announce_portmap t] names the [Map] container
    [t.announce().portmap()], whose entries live in the store. *)
Class Announce (MesosTaskInstance : Type) := {
  has_announce : MesosTaskInstance → bool;
  announce_portmap : MesosTaskInstance → loc
}.

(** [Map.get()] builds a new [dict] from the container's entries. *)
Definition Map_get (container : loc) : M loc :=
  d ← read_dict container; new_dict d.

Section binder.

Context {MesosTaskInstance : Type} `{!Announce MesosTaskInstance}.

(** [PortResolver.resolve], as a function of the entries of its
    argument; its result is a [dict] of its own. *)
Variable PortResolver_resolve :
  gmap string port_value → result (gmap string port_value).

Definition call_PortResolver_resolve (portmap : loc) : M loc :=
  d ← read_dict portmap;
  resolved ← lift (PortResolver_resolve d);
  new_dict resolved.

Definition unmapped_port (name : string) (port : string) : string :=
  "Task has unmapped port: " ++ name ++ " => " ++ port.

Definition resolve_ports (mesos_task : MesosTaskInstance) (portmap : loc) : M loc :=
  task_portmap ←
    (if has_announce mesos_task then Map_get (announce_portmap mesos_task)
     else new_dict ∅);
  dict_update task_portmap portmap;;
  task_portmap ← call_PortResolver_resolve task_portmap;
  items ← dict_items task_portmap;
  for_each items (λ '(name, port),
    match port with
    | PInt _ => mret ()
    | PStr alias => log_warning (unmapped_port name alias)
    end);;
  items ← dict_items task_portmap;
  new_dict (list_to_map
              (filter (λ item : string * port_value, isinstance_int item.2) items)).

(** The entries that the task declares: those of its [portmap]
    container when it has an announcement, none otherwise. *)
Definition announced (mesos_task : MesosTaskInstance) (w : world)
    : option (gmap string port_value) :=
  if has_announce mesos_task then objs w !! announce_portmap mesos_task
  else Some ∅.

(** The lines that the loop of lines 86 to 88 writes for [items]. *)
Definition unmapped_warnings (items : list (string * port_value)) : list string :=
  omap (λ '(name, port),
          match port with
          | PInt _ => None
          | PStr alias => Some (unmapped_port name alias)
          end) items.

End binder.

(** ** The alias resolver *)

(** Modelled from the spec: [twitter.aurora.config.port_resolver] is
    not among the sources.  Section 4.3, step 3: an entry whose value
    names another entry takes that entry's value, along the chain,
    until a number is reached or the alias dangles or the chain cycles;
    then the entry keeps the last alias reached.  A chain that comes
    back on itself is cut off after as many steps as the mapping has
    entries. *)
Fixpoint chase (portmap : gmap string port_value) (fuel : nat)
    (port : port_value) : port_value :=
  match port, fuel with
  | PInt n, _ => PInt n
  | PStr alias, O => PStr alias
  | PStr alias, S fuel =>
      match portmap !! alias with
      | Some target => chase portmap fuel target
      | None => PStr alias
      end
  end.

(** Modelled from the spec: [resolve_aliases(mapping) -> mapping] of
    section 6, the contract of [PortResolver.resolve]. *)
Definition resolve_aliases (portmap : gmap string port_value)
    : result (gmap string port_value) :=
  mret (chase portmap (size portmap) <$> portmap).

(** Modelled from the spec: what sections 4.3 and 6 promise of the
    alias resolver, whatever its algorithm: it returns a mapping, that
    mapping has the names of its argument, and only aliases are
    substituted, so an entry that holds a number keeps it. *)
Class ResolverContract
    (resolve : gmap string port_value → result (gmap string port_value)) := {
  resolve_returns : ∀ m, ∃ m', resolve m = inr m';
  resolve_names : ∀ m m', resolve m = inr m' → dom m' = dom m;
  resolve_numbers : ∀ m m' name n,
    resolve m = inr m' → m !! name = Some (PInt n) → m' !! name = Some (PInt n)
}.

(** ** pystachio references *)

(** Modelled from the spec: [pystachio.Ref] is a library class.
    Section 3: a ref is an address-style path; refs are equal when
    their addresses are, and a ref is a subscope of another when it is
    nested under it. *)
Module Pystachio.

(** [.name] or [[index]]. *)
Inductive component :=
  | Dereference (name : string)
  | Index (value : string).

#[global] Instance component_eq_dec : EqDecision component.
Proof. solve_decision. Defined.

Definition Ref := list component.

Definition extend (c : component) (ch : Ascii.ascii) : component :=
  match c with
  | Dereference s => Dereference (s ++ String ch "")
  | Index s => Index (s ++ String ch "")
  end.

Definition flush (cur : option component) : list component :=
  match cur with
  | Some c => [c]
  | None => []
  end.

(** The components of an address, read left to right; [cur] is the
    component being read. *)
Fixpoint split_components (address : string) (cur : option component)
    : list component :=
  match address with
  | "" => flush cur
  | String ch rest =>
      if Ascii.eqb ch "."%char
      then flush cur ++ split_components rest (Some (Dereference ""))
      else if Ascii.eqb ch "["%char
      then flush cur ++ split_components rest (Some (Index ""))
      else if Ascii.eqb ch "]"%char
      then flush cur ++ split_components rest None
      else split_components rest
             (Some (extend (default (Dereference "") cur) ch))
  end.

Definition from_address (address : string) : Ref :=
  split_components address None.

Definition component_str (c : component) : string :=
  match c with
  | Dereference s => "." ++ s
  | Index s => "[" ++ s ++ "]"
  end.

Definition address (ref : Ref) : string :=
  match String.concat "" (map component_str ref) with
  | String "."%char rest => rest
  | joined => joined
  end.

Definition str (ref : Ref) : string := "{{" ++ address ref ++ "}}".

(** [ref2] with the prefix [ref1] removed when [ref2] lies strictly
    under [ref1], [None] otherwise. *)
Definition subscope (ref1 ref2 : Ref) : option Ref :=
  if bool_decide (ref1 = take (length ref1) ref2)
  then if bool_decide (length ref1 < length ref2)%nat
       then Some (drop (length ref1) ref2)
       else None
  else None.

#[global] Instance ops : RefOps Ref := {|
  Ref_from_address := from_address;
  Ref_eq := λ r1 r2, bool_decide (r1 = r2);
  Ref_subscope := subscope;
  Ref_str := str
|}.

End Pystachio.

(** ** The whitelist of section 4.2 *)

(** The three rules, in the words of the specification: the address
    [thermos.task_id], a subscope of [thermos.ports], the address
    [thermos.user]. *)
Definition whitelisted `{RefOps Ref} (ref : Ref) : Prop :=
  Ref_eq ref (Ref_from_address "thermos.task_id") = true
  ∨ is_Some (Ref_subscope (Ref_from_address "thermos.ports") ref)
  ∨ Ref_eq ref (Ref_from_address "thermos.user") = true.

#[global] Instance whitelisted_dec `{RefOps Ref} (ref : Ref) :
  Decision (whitelisted ref).
Proof. unfold whitelisted. apply _. Defined.

(** The errors of section 7, as the code raises them: all four are
    [ValueError]s, told apart by their text. *)
Definition DecodeError (cause : exn) : exn :=
  PyExn ValueError ("Could not deserialize task! " ++ exn_str cause).
Definition MissingConfigError : exn :=
  PyExn ValueError "Task did not have a thermos config!".
Definition MalformedConfigError (cause : exn) : exn :=
  PyExn ValueError ("Could not deserialize thermos config: " ++ exn_str cause).

(** ** Test doubles *)

Module Fake.

(** A double quote. *)
Definition dq : string := String "034"%char "".

(** A job template and an instance configuration, as JSON text. *)
Definition job_blob : string := "{}".
Definition instance_blob : string := "{" ++ dq ++ "instance" ++ dq ++ ": 0}".

(** A parser that knows the two texts above and rejects the rest. *)
Definition parse (s : string) : result json :=
  if bool_decide (s = job_blob) then mret (JDict [])
  else if bool_decide (s = instance_blob) then mret (JDict [("instance", JInt 0)])
  else raise (PyExn ValueError "No JSON object could be decoded").

(** The thermos configuration is the task itself; jobs and instances
    are kept as their JSON text; the engine leaves [unbound]
    unresolved. *)
Definition config (unbound : list Pystachio.Ref)
    : Config (option string) string string Pystachio.Ref := {|
  resolve_thermos_config := λ t, t;
  json_loads := parse;
  MesosTaskInstance_json_loads := λ s, mret s;
  MesosJob_json_loads := λ s, mret s;
  task_instance_from_job := λ job _, mret (job, unbound)
|}.

Definition assigned (thermos_config : option string) : AssignedTask (option string) :=
  mkAssignedTask thermos_config 0.

(** The refs that the thermos runner binds, and one that nobody
    binds. *)
Definition deferred_refs : list Pystachio.Ref :=
  [Pystachio.from_address "thermos.task_id";
   Pystachio.from_address "thermos.ports.http";
   Pystachio.from_address "thermos.user"].
Definition stray_ref : Pystachio.Ref := Pystachio.from_address "foo.bar".

(** The resolver under test, with the engine leaving [unbound]. *)
Definition resolve (unbound : list Pystachio.Ref) (thermos_config : option string)
    : result string :=
  @mesos_task_instance_from_assigned_task _ _ _ _ Pystachio.ops (config unbound)
    (assigned thermos_config).

(** A deserialiser that reads the instance id from a one-byte
    payload, finds the end of input on an empty one, and a protocol
    error on anything longer. *)
Definition thrift_deserialize (bytes : list Byte.byte)
    : result (AssignedTask (option string)) :=
  match bytes with
  | [] => raise (PyExn EOFError "")
  | [b] => mret (mkAssignedTask (Some job_blob) (Z.of_N (Byte.to_N b)))
  | _ => raise (PyExn TProtocolException "Bad version in readMessageBegin")
  end.

(** A task is its announcement, if any: the reference of its
    [portmap] container. *)
#[global] Instance announce : Announce (option loc) := {|
  has_announce := truthy;
  announce_portmap := λ t, default 1%positive t
|}.

End Fake.

(** ** Frames *)

(** [keeps σ w]: every object of the store [σ] is in [w], with the
    entries it had. *)
Definition keeps (σ : gmap loc (gmap string port_value)) (w : world) : Prop :=
  ∀ l d, σ !! l = Some d → objs w !! l = Some d.

(** [framed σ m Q]: from a world that keeps [σ], the computation [m]
    ends, by a return or by a raise, in a world that keeps [σ]; a
    value that it returns satisfies [Q]. *)
Definition framed {A} (σ : gmap loc (gmap string port_value)) (m : M A)
    (Q : A → Prop) : Prop :=
  ∀ w, keeps σ w → keeps σ (m w).2 ∧ ∀ v, (m w).1 = inr v → Q v.

(** ** Port binding, as section 4.3 words step 4 *)

(** The final mapping holds an entry exactly when the resolved mapping
    holds it with a non-negative integer. *)
Definition keeps_exactly_nonnegative {MesosTaskInstance} `{!Announce MesosTaskInstance}
    (resolve : gmap string port_value → result (gmap string port_value))
    (mesos_task : MesosTaskInstance) (portmap : loc) (w : world) : Prop :=
  ∀ scheduled base resolved final_at w' final,
    objs w !! portmap = Some scheduled →
    announced mesos_task w = Some base →
    resolve (scheduled ∪ base) = inr resolved →
    resolve_ports resolve mesos_task portmap w = (inr final_at, w') →
    objs w' !! final_at = Some final →
    ∀ name port,
      final !! name = Some port
      ↔ resolved !! name = Some port ∧ ∃ n, port = PInt n ∧ 0 ≤ n.

(** ** Worlds for the examples *)

Module Example.

(** The scheduler's port map is the object 1, a task's [portmap]
    container the object 2. *)
Definition world_of (scheduled declared : gmap string port_value) : world :=
  World {[ 1%positive := scheduled; 2%positive := declared ]} [].

(** A task without announcement, and one whose announcement has the
    container 2. *)
Definition plain_task : option loc := None.
Definition announcing_task : option loc := Some 2%positive.

(** Section 8: the task declares [http] as an alias and [https] as
    443; the scheduler allocates 8080 to [http]. *)
Definition declared : gmap string port_value :=
  {[ "http" := PStr "aliased_to_https"; "https" := PInt 443 ]}.
Definition scheduled : gmap string port_value := {[ "http" := PInt 8080 ]}.

(** Section 8: an alias that names no port. *)
Definition dangling : gmap string port_value := {[ "http" := PStr "nope" ]}.

(** A scheduler map with a negative number. *)
Definition negative : gmap string port_value := {[ "http" := PInt (-1) ]}.

(** The binder under test, on the resolver modelled above; the
    outcome, and the entries of the dictionary it returns. *)
Definition bind_ports (mesos_task : option loc) (w : world)
    : result (option (gmap string port_value)) * list string :=
  let '(r, w') := resolve_ports resolve_aliases mesos_task 1%positive w in
  (l ← r; mret (objs w' !! l), warnings w').

End Example.

(** ** JSON values without membership *)

(** The values on which [in] raises: [None], booleans and numbers. *)
Definition scalar (json_blob : json) : bool :=
  match json_blob with
  | JNull | JBool _ | JInt _ | JFloat _ => true
  | JStr _ | JList _ | JDict _ => false
  end.

(** ** Doubles that fail *)

Module Faulty.

(** A configuration whose parser, job decoder and engine are given one
    by one; the thermos configuration is the task itself and an
    instance is kept as its JSON text. *)
Definition config (parse : string → result json)
    (load_job : string → result string)
    (instantiate : string → Z → result (string * list Pystachio.Ref))
    : Config (option string) string string Pystachio.Ref := {|
  resolve_thermos_config := λ t, t;
  json_loads := parse;
  MesosTaskInstance_json_loads := λ s, mret s;
  MesosJob_json_loads := load_job;
  task_instance_from_job := instantiate
|}.

(** A parser that reads every text as the number 5, one that reads
    every text as an empty object, and one that fails outside the
    classes that the module handles. *)
Definition parse_five (s : string) : result json := mret (JInt 5).
Definition parse_object (s : string) : result json := mret (JDict []).
Definition parse_lost (s : string) : result json :=
  raise (PyExn KeyError "thermos").

(** A job decoder that rejects the schema, and an engine that fails. *)
Definition reject_job (s : string) : result string :=
  raise (PyExn TypeError "MesosJob: unexpected field").
Definition broken_engine (job : string) (instance : Z)
    : result (string * list Pystachio.Ref) :=
  raise (PyExn KeyError "instance").

(** An alias resolver that finds a cycle. *)
Definition cyclic (portmap : gmap string port_value)
    : result (gmap string port_value) :=
  raise (PyExn Exception "Found cycle in portmap!").

End Faulty.

(** ** Sections 4.1 and 4.2, as the specification words them *)

(** Section 4.1: a payload is either refused with a [DecodeError] or
    decoded into a populated record, here one whose [task] is set. *)
Definition rejects_or_populates
    (thrift_deserialize : list Byte.byte → result (AssignedTask (option string)))
    (t : TaskInfo) : Prop :=
  (∃ cause,
     assigned_task_from_mesos_task thrift_deserialize t = inl (DecodeError cause))
  ∨ (∃ assigned_task,
       assigned_task_from_mesos_task thrift_deserialize t = inr assigned_task
       ∧ is_Some (task assigned_task)).

(** Section 4.2, step 2: a configuration that is there and that the
    parser does not accept is refused with a [MalformedConfigError]. *)
Definition malformed_reported {TaskConfig MesosJob MesosTaskInstance Ref : Type}
    `{!RefOps Ref, !Config TaskConfig MesosJob MesosTaskInstance Ref}
    (assigned_task : AssignedTask TaskConfig) : Prop :=
  ∀ thermos_task,
    resolve_thermos_config (task assigned_task) = Some thermos_task →
    thermos_task ≠ "" →
    (∀ json_blob, json_loads thermos_task ≠ inr json_blob) →
    ∃ cause,
      mesos_task_instance_from_assigned_task assigned_task
      = inl (MalformedConfigError cause).

(** ** Doubles after the libraries *)

Module Lenient.

(** The record that [AssignedTask()] builds: no field is set (the
    instance id, which has no unset value here, is 0). *)
Definition unset : AssignedTask (option string) := mkAssignedTask None 0.

(** Thrift's binary protocol, up to the first field header.  The
    reader takes one byte for the type of the next field: at the end
    of the input it raises [EOFError]; on the type STOP (00) the
    struct ends there, the bytes that follow are not read, and the
    record comes back with the fields set so far, that is none.
    What becomes of a payload that starts with a field is left to
    [fields]. *)
Definition read_struct
    (fields : list Byte.byte → result (AssignedTask (option string)))
    (bytes : list Byte.byte) : result (AssignedTask (option string)) :=
  match bytes with
  | [] => raise (PyExn EOFError "")
  | b :: _ => if Byte.eqb b Byte.x00 then mret unset else fields bytes
  end.

Definition thrift_deserialize : list Byte.byte → result (AssignedTask (option string)) :=
  read_struct (λ _, raise (PyExn TProtocolException "Bad version in readMessageBegin")).

(** A hundred thousand opening brackets: a text that is not JSON, and
    on which [json.loads] reaches the recursion limit before it
    reaches the end. *)
Definition deep_blob : string := String "["%char (N.iter 99999 (String "["%char) "").

(** [json.loads] on that text, and on texts that it rejects in the
    usual way. *)
Definition parse (s : string) : result json :=
  if bool_decide (s = deep_blob)
  then raise (PyExn RecursionError
                "maximum recursion depth exceeded while decoding a JSON array")
  else raise (PyExn ValueError "No JSON object could be decoded").

Definition config : Config (option string) string string Pystachio.Ref := {|
  resolve_thermos_config := λ t, t;
  json_loads := parse;
  MesosTaskInstance_json_loads := λ s, mret s;
  MesosJob_json_loads := λ s, mret s;
  task_instance_from_job := λ job _, mret (job, [])
|}.

End Lenient.

(** * Properties *)

(** ** Exceptions *)

Lemma issubclass_refl c : issubclass c c = true.
Proof. unfold issubclass. by rewrite bool_decide_eq_true_2. Qed.

Lemma try_except_returns {A} (v : A) handlers handler :
  try_except (inr v) handlers handler = inr v.
Proof. reflexivity. Qed.

Lemma try_except_caught {A} e handlers (handler : exn → result A) :
  catches handlers e = true →
  try_except (inl e) handlers handler = handler e.
Proof. intros Hc. unfold try_except. by rewrite Hc. Qed.

Lemma try_except_propagates {A} e handlers (handler : exn → result A) :
  catches handlers e = false →
  try_except (inl e) handlers handler = inl e.
Proof. intros Hc. unfold try_except. by rewrite Hc. Qed.

(** ** The assignment decoder *)

Section decoder_facts.

Context {TaskConfig : Type}.
Variable thrift_deserialize : list Byte.byte → result (AssignedTask TaskConfig).

(** An exception that the handler of line 19 does not name goes
    through unchanged. *)
Lemma decode_propagates t e :
  thrift_deserialize (data t) = inl e →
  catches [EOFError; TException] e = false →
  assigned_task_from_mesos_task thrift_deserialize t = inl e.
Proof.
  intros Hd Hc. unfold assigned_task_from_mesos_task.
  rewrite Hd. by apply try_except_propagates.
Qed.

(** C9, amended: the decoder does what the thrift deserialiser does,
    but for the class of two of its errors.  When the deserialiser
    meets the end of the input ([EOFError]) or a protocol or transport
    error ([TException] or a subclass of it), decoding fails with the
    [DecodeError] built from that cause, and so returns no record; an
    exception of another class comes out as it is; and when the
    deserialiser returns a record, for whatever payload, decoding
    returns this very record. *)
Theorem decode_error_or_record t :
  (∀ e, thrift_deserialize (data t) = inl e →
        catches [EOFError; TException] e = true →
        assigned_task_from_mesos_task thrift_deserialize t = inl (DecodeError e))
  ∧ (∀ e, thrift_deserialize (data t) = inl e →
          catches [EOFError; TException] e = false →
          assigned_task_from_mesos_task thrift_deserialize t = inl e)
  ∧ (∀ assigned_task, thrift_deserialize (data t) = inr assigned_task →
        assigned_task_from_mesos_task thrift_deserialize t = inr assigned_task).
Proof.
  unfold assigned_task_from_mesos_task. split; [| split].
  - intros e -> Hc. by rewrite try_except_caught.
  - intros e -> Hc. by rewrite try_except_propagates.
  - by intros a ->.
Qed.

End decoder_facts.

(** The end of input, a protocol error, and a payload that the
    deserialiser reads. *)
Lemma decode_error_or_record_witness :
  assigned_task_from_mesos_task Fake.thrift_deserialize (mkTaskInfo [])
    = inl (DecodeError (PyExn EOFError ""))
  ∧ assigned_task_from_mesos_task Fake.thrift_deserialize
      (mkTaskInfo [Byte.x00; Byte.x01])
    = inl (PyExn ValueError
             "Could not deserialize task! Bad version in readMessageBegin")
  ∧ assigned_task_from_mesos_task Fake.thrift_deserialize (mkTaskInfo [Byte.x07])
    = inr (mkAssignedTask (Some Fake.job_blob) 7).
Proof.
  split; [|split].
  - apply (proj1 (decode_error_or_record Fake.thrift_deserialize (mkTaskInfo [])));
      reflexivity.
  - apply (proj1 (decode_error_or_record Fake.thrift_deserialize
                    (mkTaskInfo [Byte.x00; Byte.x01]))
             (PyExn TProtocolException "Bad version in readMessageBegin"));
      reflexivity.
  - apply (proj2 (proj2 (decode_error_or_record Fake.thrift_deserialize
                           (mkTaskInfo [Byte.x07]))));
      reflexivity.
Defined.

(** A payload that starts with the STOP byte and goes on: thrift's
    reader stops at once, and the decoder returns the record with no
    field set.  It is neither refused nor populated. *)
Lemma decode_unset_record :
  assigned_task_from_mesos_task Lenient.thrift_deserialize
    (mkTaskInfo [Byte.x00; Byte.x01]) = inr Lenient.unset
  ∧ ¬ rejects_or_populates Lenient.thrift_deserialize
        (mkTaskInfo [Byte.x00; Byte.x01]).
Proof.
  split; [reflexivity |].
  intros [[cause Hrefused] | (assigned_task & Hreturned & [config Hset])].
  - discriminate Hrefused.
  - injection Hreturned as <-. discriminate Hset.
Qed.

(** ** The task configuration resolver *)

Section resolver_facts.

Context {TaskConfig MesosJob MesosTaskInstance Ref : Type}.
Context `{!RefOps Ref, !Config TaskConfig MesosJob MesosTaskInstance Ref}.

Implicit Types (assigned_task : AssignedTask TaskConfig) (refs rest : list Ref).

(** One turn of the loop: the three tests of lines 68 to 73 let a ref
    through exactly when it is whitelisted. *)
Lemma check_refs_cons refs ref rest :
  check_refs refs (ref :: rest) =
    if decide (whitelisted ref) then check_refs refs rest
    else raise (unexpected_unbound_refs refs).
Proof.
  cbn [check_refs].
  destruct (decide (whitelisted ref)) as [Hyes | Hno].
  - destruct Hyes as [Htid | [[sub Hsub] | Huser]].
    + by rewrite Htid.
    + rewrite Hsub. cbn [truthy].
      by destruct (Ref_eq ref (Ref_from_address "thermos.task_id")).
    + rewrite Huser.
      destruct (Ref_eq ref (Ref_from_address "thermos.task_id")); [done |].
      by destruct (truthy (Ref_subscope (Ref_from_address "thermos.ports") ref)).
  - destruct (Ref_eq ref (Ref_from_address "thermos.task_id")) eqn:Htid.
    { destruct Hno. by left. }
    destruct (Ref_subscope (Ref_from_address "thermos.ports") ref) as [sub|] eqn:Hsub.
    { destruct Hno. right; left. rewrite Hsub. by exists sub. }
    cbn [truthy].
    destruct (Ref_eq ref (Ref_from_address "thermos.user")) eqn:Huser; [| done].
    destruct Hno. by right; right.
Qed.

Lemma check_refs_whitelisted refs rest :
  Forall whitelisted rest → check_refs refs rest = inr ().
Proof.
  induction 1 as [| ref rest Href _ IH]; [done |].
  by rewrite check_refs_cons, decide_True.
Qed.

Lemma check_refs_offending refs rest :
  ¬ Forall whitelisted rest →
  check_refs refs rest = inl (unexpected_unbound_refs refs).
Proof.
  induction rest as [| ref rest IH]; intros Hnot.
  - destruct Hnot. constructor.
  - rewrite check_refs_cons. destruct (decide (whitelisted ref)) as [Href|]; [|done].
    apply IH. intros Hrest. apply Hnot. by constructor.
Qed.

(** The steps up to the parse of a thermos configuration that is
    there. *)
Lemma resolve_unfold assigned_task thermos_task :
  resolve_thermos_config (task assigned_task) = Some thermos_task →
  thermos_task ≠ "" →
  mesos_task_instance_from_assigned_task assigned_task =
    (json_blob ← try_except (json_loads thermos_task) [TypeError; ValueError]
       (λ e, raise (MalformedConfigError e));
     has_instance ← py_in "instance" json_blob;
     if (has_instance : bool) then MesosTaskInstance_json_loads thermos_task
     else
       job ← MesosJob_json_loads thermos_task;
       '(mti, refs) ← task_instance_from_job job (instanceId assigned_task);
       check_refs refs refs;;
       mret mti).
Proof.
  intros Hcfg Hne. unfold mesos_task_instance_from_assigned_task.
  rewrite Hcfg. by destruct thermos_task.
Qed.

(** C7: when the extraction of the thermos configuration yields [None]
    or the empty string, resolution raises [MissingConfigError]; the
    outcome is the same whatever the JSON parser, the schema decoders
    and the instantiation engine would do, so none of them has a say. *)
Theorem resolve_missing_config assigned_task :
  resolve_thermos_config (task assigned_task) = None
  ∨ resolve_thermos_config (task assigned_task) = Some "" →
  mesos_task_instance_from_assigned_task assigned_task = inl MissingConfigError.
Proof.
  unfold mesos_task_instance_from_assigned_task.
  by intros [-> | ->].
Qed.

(** C8, amended: when the thermos configuration is there and
    [json.loads] rejects it with a [ValueError] (or a [TypeError], or
    a subclass of either), as it does for the common run of texts that
    are no JSON, resolution raises [MalformedConfigError] carrying the
    parser's message: neither the parser's own exception nor a value
    comes out. *)
Theorem resolve_malformed_config assigned_task thermos_task e :
  resolve_thermos_config (task assigned_task) = Some thermos_task →
  thermos_task ≠ "" →
  json_loads thermos_task = inl e →
  catches [TypeError; ValueError] e = true →
  mesos_task_instance_from_assigned_task assigned_task
    = inl (MalformedConfigError e).
Proof.
  intros Hcfg Hne Hparse Hc.
  rewrite (resolve_unfold _ _ Hcfg Hne), Hparse.
  by rewrite try_except_caught.
Qed.

(** C3: when the parsed structure has [instance] among its keys,
    resolution is [MesosTaskInstance.json_loads] applied to the
    configuration text, and nothing else: the outcome mentions neither
    the job decoder, nor the instantiation engine, nor the refs. *)
Theorem resolve_instance_config assigned_task thermos_task json_blob :
  resolve_thermos_config (task assigned_task) = Some thermos_task →
  thermos_task ≠ "" →
  json_loads thermos_task = inr json_blob →
  py_in "instance" json_blob = inr true →
  mesos_task_instance_from_assigned_task assigned_task
    = MesosTaskInstance_json_loads thermos_task.
Proof.
  intros Hcfg Hne Hparse Hin.
  rewrite (resolve_unfold _ _ Hcfg Hne), Hparse.
  cbn. by rewrite Hin.
Qed.

(** The job branch, up to the loop over the unresolved refs. *)
Lemma resolve_job_template assigned_task thermos_task json_blob job mti refs :
  resolve_thermos_config (task assigned_task) = Some thermos_task →
  thermos_task ≠ "" →
  json_loads thermos_task = inr json_blob →
  py_in "instance" json_blob = inr false →
  MesosJob_json_loads thermos_task = inr job →
  task_instance_from_job job (instanceId assigned_task) = inr (mti, refs) →
  mesos_task_instance_from_assigned_task assigned_task
    = (check_refs refs refs;; mret mti).
Proof.
  intros Hcfg Hne Hparse Hin Hjob Hinst.
  rewrite (resolve_unfold _ _ Hcfg Hne), Hparse.
  cbn. rewrite Hin. cbn. rewrite Hjob. cbn. by rewrite Hinst.
Qed.

(** C1: for a job template (the parsed structure has no [instance]
    key) that the engine instantiates leaving [refs] unresolved,
    resolution returns the instance exactly when every ref is
    whitelisted, and raises the error of line 74 otherwise. *)
Theorem resolve_job_iff_whitelisted
    assigned_task thermos_task json_blob job mti refs :
  resolve_thermos_config (task assigned_task) = Some thermos_task →
  thermos_task ≠ "" →
  json_loads thermos_task = inr json_blob →
  py_in "instance" json_blob = inr false →
  MesosJob_json_loads thermos_task = inr job →
  task_instance_from_job job (instanceId assigned_task) = inr (mti, refs) →
  ((∃ v, mesos_task_instance_from_assigned_task assigned_task = inr v)
     ↔ Forall whitelisted refs)
  ∧ (Forall whitelisted refs →
     mesos_task_instance_from_assigned_task assigned_task = inr mti)
  ∧ (¬ Forall whitelisted refs →
     mesos_task_instance_from_assigned_task assigned_task
       = inl (unexpected_unbound_refs refs)).
Proof.
  intros Hcfg Hne Hparse Hin Hjob Hinst.
  rewrite (resolve_job_template _ _ _ _ _ _ Hcfg Hne Hparse Hin Hjob Hinst).
  assert (Hyes : Forall whitelisted refs →
                 (check_refs refs refs;; mret mti) = inr mti).
  { intros Hall. by rewrite check_refs_whitelisted. }
  assert (Hno : ¬ Forall whitelisted refs →
                (check_refs refs refs;; mret mti)
                  = inl (unexpected_unbound_refs refs)).
  { intros Hnot. by rewrite check_refs_offending. }
  split; [| by split].
  split.
  - intros [v Hv]. destruct (decide (Forall whitelisted refs)) as [|Hnot]; [done |].
    rewrite (Hno Hnot) in Hv. discriminate.
  - intros Hall. exists mti. by apply Hyes.
Qed.

End resolver_facts.

(** The example of section 8: the three deferred refs pass, and one
    more ref, [foo.bar], makes the resolution fail. *)
Lemma resolve_job_iff_whitelisted_witness :
  Fake.resolve Fake.deferred_refs (Some Fake.job_blob) = inr Fake.job_blob
  ∧ Fake.resolve (Fake.deferred_refs ++ [Fake.stray_ref]) (Some Fake.job_blob)
    = inl (unexpected_unbound_refs (Fake.deferred_refs ++ [Fake.stray_ref])).
Proof.
  split.
  - apply (proj1 (proj2 (resolve_job_iff_whitelisted
             (Config0 := Fake.config Fake.deferred_refs)
             (Fake.assigned (Some Fake.job_blob)) Fake.job_blob (JDict [])
             Fake.job_blob Fake.job_blob Fake.deferred_refs
             eq_refl ltac:(discriminate) eq_refl eq_refl eq_refl eq_refl))).
    apply (bool_decide_unpack _). vm_compute. exact I.
  - apply (proj2 (proj2 (resolve_job_iff_whitelisted
             (Config0 := Fake.config (Fake.deferred_refs ++ [Fake.stray_ref]))
             (Fake.assigned (Some Fake.job_blob)) Fake.job_blob (JDict [])
             Fake.job_blob Fake.job_blob (Fake.deferred_refs ++ [Fake.stray_ref])
             eq_refl ltac:(discriminate) eq_refl eq_refl eq_refl eq_refl))).
    apply (bool_decide_eq_false_1 _). vm_compute. reflexivity.
Defined.

(** C2: with the refs [thermos.task_id] and [foo.bar] left unresolved,
    the error text names both of them, the whitelisted
    [thermos.task_id] included, under the heading of unexpected refs. *)
Theorem resolve_error_lists_every_ref :
  Fake.resolve [Pystachio.from_address "thermos.task_id"; Fake.stray_ref]
    (Some Fake.job_blob)
  = inl (PyExn ValueError
           "Unexpected unbound refs: {{thermos.task_id}} {{foo.bar}}").
Proof. vm_compute. reflexivity. Qed.

(** An instance configuration goes through although the engine, had
    it been asked, would have left [foo.bar] unresolved. *)
Lemma resolve_instance_config_witness :
  Fake.resolve [Fake.stray_ref] (Some Fake.instance_blob) = inr Fake.instance_blob.
Proof.
  apply (resolve_instance_config (Config0 := Fake.config [Fake.stray_ref])
           (Fake.assigned (Some Fake.instance_blob)) Fake.instance_blob
           (JDict [("instance", JInt 0)])
           eq_refl ltac:(discriminate) eq_refl eq_refl).
Defined.

(** No configuration, and an empty one. *)
Lemma resolve_missing_config_witness :
  Fake.resolve [] None = inl MissingConfigError
  ∧ Fake.resolve [] (Some "") = inl MissingConfigError.
Proof.
  split.
  - apply (resolve_missing_config (Config0 := Fake.config [])
             (Fake.assigned None) (or_introl eq_refl)).
  - apply (resolve_missing_config (Config0 := Fake.config [])
             (Fake.assigned (Some "")) (or_intror eq_refl)).
Defined.

(** The example of section 8: the text [{not json]. *)
Lemma resolve_malformed_config_witness :
  Fake.resolve [] (Some "{not json")
  = inl (PyExn ValueError
           "Could not deserialize thermos config: No JSON object could be decoded").
Proof.
  apply (resolve_malformed_config (Config0 := Fake.config [])
           (Fake.assigned (Some "{not json")) "{not json"
           (PyExn ValueError "No JSON object could be decoded")
           eq_refl ltac:(discriminate) eq_refl eq_refl).
Defined.

(** An exception of the parser outside the classes of line 46 is not
    reported as a malformed configuration. *)
Lemma parser_escape {TaskConfig MesosJob MesosTaskInstance Ref : Type}
    `{!RefOps Ref, !Config TaskConfig MesosJob MesosTaskInstance Ref}
    (assigned_task : AssignedTask TaskConfig) thermos_task e :
  resolve_thermos_config (task assigned_task) = Some thermos_task →
  thermos_task ≠ "" →
  json_loads thermos_task = inl e →
  catches [TypeError; ValueError] e = false →
  (∀ cause, e ≠ MalformedConfigError cause) →
  ¬ malformed_reported assigned_task.
Proof.
  intros Hcfg Hne Hparse Hc Hother Hreported.
  destruct (Hreported thermos_task Hcfg Hne) as [cause Hraise].
  { intros json_blob. rewrite Hparse. discriminate. }
  rewrite (resolve_unfold _ _ Hcfg Hne), Hparse in Hraise.
  rewrite try_except_propagates in Hraise by done.
  injection Hraise as Hraise. by apply (Hother cause).
Qed.

Lemma deep_blob_recursion :
  @json_loads _ _ _ _ Lenient.config Lenient.deep_blob
  = inl (PyExn RecursionError
           "maximum recursion depth exceeded while decoding a JSON array").
Proof.
  change (Lenient.parse Lenient.deep_blob
          = inl (PyExn RecursionError
                   "maximum recursion depth exceeded while decoding a JSON array")).
  unfold Lenient.parse. by rewrite bool_decide_eq_true_2.
Qed.

Lemma deep_blob_nonempty : Lenient.deep_blob ≠ "".
Proof. unfold Lenient.deep_blob. discriminate. Qed.

(** A hundred thousand opening brackets are no JSON, and the parser
    says so with a [RecursionError], which is neither of the classes
    that line 46 names: it comes out as it is, and no
    [MalformedConfigError] is raised. *)
Lemma deep_nesting_escapes :
  ¬ malformed_reported (RefOps0 := Pystachio.ops) (Config0 := Lenient.config)
      (Fake.assigned (Some Lenient.deep_blob)).
Proof.
  apply (parser_escape (RefOps0 := Pystachio.ops) (Config0 := Lenient.config)
           (Fake.assigned (Some Lenient.deep_blob)) Lenient.deep_blob _
           eq_refl deep_blob_nonempty deep_blob_recursion eq_refl).
  intros cause. discriminate.
Qed.

(** ** The object store *)

Lemma read_dict_Some l d w :
  objs w !! l = Some d → read_dict l w = (inr d, w).
Proof. intros Hl. unfold read_dict. by rewrite Hl. Qed.

Lemma bind_returns {A B} (m : M A) (k : A → M B) w v w' :
  m w = (inr v, w') → (m ≫= k) w = k v w'.
Proof. intros Hm. unfold mbind, M_bind. by rewrite Hm. Qed.

Lemma bind_raises {A B} (m : M A) (k : A → M B) w e w' :
  m w = (inl e, w') → (m ≫= k) w = (inl e, w').
Proof. intros Hm. unfold mbind, M_bind. by rewrite Hm. Qed.

Lemma fresh_lookup (σ : gmap loc (gmap string port_value)) :
  σ !! fresh (dom σ) = None.
Proof. apply not_elem_of_dom, is_fresh. Qed.

Lemma fresh_ne (σ : gmap loc (gmap string port_value)) l d :
  σ !! l = Some d → fresh (dom σ) ≠ l.
Proof. intros Hl <-. by rewrite fresh_lookup in Hl. Qed.

(** The loop of lines 86 to 88 only writes to the log. *)
Lemma for_each_warnings items w :
  for_each items (λ '(name, port),
    match port with
    | PInt _ => mret ()
    | PStr alias => log_warning (unmapped_port name alias)
    end) w
  = (inr (), World (objs w) (warnings w ++ unmapped_warnings items)).
Proof.
  revert w. induction items as [| [name port] items IH]; intros w.
  - cbn. rewrite app_nil_r. by destruct w.
  - cbn [for_each]. destruct port as [n | alias].
    + erewrite bind_returns; [| reflexivity]. by rewrite IH.
    + erewrite bind_returns; [| reflexivity]. rewrite IH. cbn.
      by rewrite <- app_assoc.
Qed.

(** ** The port binder *)

Section binder_facts.

Context {MesosTaskInstance : Type} `{!Announce MesosTaskInstance}.
Variable PortResolver_resolve :
  gmap string port_value → result (gmap string port_value).

Implicit Types (mesos_task : MesosTaskInstance) (portmap : loc) (w : world).
Implicit Types (scheduled base resolved : gmap string port_value).

(** Line 82 allocates a dictionary with the entries that the task
    declares. *)
Lemma task_portmap_fresh mesos_task w base :
  announced mesos_task w = Some base →
  (if has_announce mesos_task then Map_get (announce_portmap mesos_task)
   else new_dict ∅) w
  = new_dict base w.
Proof.
  unfold announced. destruct (has_announce mesos_task).
  - intros Hbase. unfold Map_get.
    by rewrite (bind_returns _ _ _ _ _ (read_dict_Some _ _ _ Hbase)).
  - by intros [= <-].
Qed.

(** Line 83, run on the dictionary that line 82 allocated. *)
Lemma dict_update_fresh portmap w scheduled base :
  objs w !! portmap = Some scheduled →
  let task_portmap := fresh (dom (objs w)) in
  dict_update task_portmap portmap
    (World (<[task_portmap := base]> (objs w)) (warnings w))
  = (inr (), World (<[task_portmap := scheduled ∪ base]> (objs w)) (warnings w)).
Proof.
  intros Hpm task_portmap. unfold dict_update.
  erewrite bind_returns; last first.
  { apply read_dict_Some. cbn.
    rewrite lookup_insert_ne; [exact Hpm | by eapply fresh_ne]. }
  erewrite bind_returns; last first.
  { apply read_dict_Some. cbn. apply lookup_insert_eq. }
  unfold write_dict. cbn. by rewrite insert_insert_eq.
Qed.

(** The whole run, when the resolver returns: three dictionaries are
    allocated, for the merged, the resolved and the filtered entries,
    and one line is logged for each entry that is not an [int]. *)
Lemma resolve_ports_run mesos_task portmap w scheduled base resolved :
  objs w !! portmap = Some scheduled →
  announced mesos_task w = Some base →
  PortResolver_resolve (scheduled ∪ base) = inr resolved →
  let merged_at := fresh (dom (objs w)) in
  let σ1 := <[merged_at := scheduled ∪ base]> (objs w) in
  let resolved_at := fresh (dom σ1) in
  let σ2 := <[resolved_at := resolved]> σ1 in
  let final_at := fresh (dom σ2) in
  resolve_ports PortResolver_resolve mesos_task portmap w
  = (inr final_at,
     World (<[final_at := filter (λ item, isinstance_int item.2) resolved]> σ2)
           (warnings w ++ unmapped_warnings (map_to_list resolved))).
Proof.
  intros Hpm Hbase Hres merged_at σ1 resolved_at σ2 final_at.
  unfold resolve_ports.
  erewrite bind_returns; last first.
  { rewrite (task_portmap_fresh _ _ _ Hbase). reflexivity. }
  erewrite bind_returns; last by apply dict_update_fresh.
  unfold call_PortResolver_resolve.
  erewrite bind_returns; last first.
  { erewrite bind_returns; last first.
    { apply read_dict_Some. cbn. apply lookup_insert_eq. }
    erewrite bind_returns; last first.
    { unfold lift. rewrite Hres. reflexivity. }
    reflexivity. }
  cbn [objs warnings].
  fold merged_at σ1 resolved_at σ2.
  assert (Hitems : ∀ ws, dict_items resolved_at (World σ2 ws)
                         = (inr (map_to_list resolved), World σ2 ws)).
  { intros ws. unfold dict_items. erewrite bind_returns; last first.
    { apply read_dict_Some. cbn. apply lookup_insert_eq. }
    reflexivity. }
  erewrite bind_returns; last by apply Hitems.
  erewrite bind_returns; last by apply for_each_warnings.
  cbn [objs warnings].
  erewrite bind_returns; last by apply Hitems.
  unfold new_dict. cbn [objs warnings]. fold final_at.
  by rewrite <- map_filter_alt.
Qed.

(** What gets a warning and what is kept add up to the resolved
    mapping. *)
Lemma unmapped_warnings_length (items : list (string * port_value)) :
  (length (unmapped_warnings items)
   + length (filter (λ item, isinstance_int item.2) items))%nat
  = length items.
Proof.
  induction items as [| [name [n | alias]] items IH]; [done | |].
  - cbn [unmapped_warnings omap list_omap]. rewrite filter_cons_True by done.
    cbn [length]. unfold unmapped_warnings in IH. lia.
  - cbn [unmapped_warnings omap list_omap]. rewrite filter_cons_False by naive_solver.
    cbn [length]. unfold unmapped_warnings in IH. lia.
Qed.

Lemma size_kept resolved :
  size (filter (λ item, isinstance_int item.2) resolved)
  = length (filter (λ item, isinstance_int item.2) (map_to_list resolved)).
Proof.
  rewrite map_filter_alt. apply map_size_list_to_map.
  eapply sublist_NoDup; [apply (NoDup_fst_map_to_list resolved) |].
  apply fmap_sublist, sublist_filter.
Qed.

(** C5, amended: when the resolver returns [resolved], the binder
    returns a dictionary that holds an entry exactly when [resolved]
    holds it with an [int], of either sign; an entry whose value is a
    string is left out and has its line in the log; the lines logged
    and the entries kept are as many as the entries of [resolved]. *)
Theorem resolve_ports_keeps_ints mesos_task portmap w scheduled base resolved :
  objs w !! portmap = Some scheduled →
  announced mesos_task w = Some base →
  PortResolver_resolve (scheduled ∪ base) = inr resolved →
  ∃ final_at w' final logged,
    resolve_ports PortResolver_resolve mesos_task portmap w = (inr final_at, w')
    ∧ objs w' !! final_at = Some final
    ∧ warnings w' = (warnings w ++ logged)%list
    ∧ (∀ name port,
         final !! name = Some port
         ↔ resolved !! name = Some port ∧ ∃ n, port = PInt n)
    ∧ (∀ name alias,
         resolved !! name = Some (PStr alias) →
         final !! name = None ∧ unmapped_port name alias ∈ logged)
    ∧ (length logged + size final)%nat = size resolved.
Proof.
  intros Hpm Hbase Hres.
  pose proof (resolve_ports_run _ _ _ _ _ _ Hpm Hbase Hres) as Hrun.
  cbv zeta in Hrun. eexists _, _, _, _.
  split; [exact Hrun |]. cbn [objs warnings].
  split; [apply lookup_insert_eq |].
  split; [reflexivity |].
  split; [| split].
  - intros name port. rewrite map_lookup_filter_Some. cbn.
    split.
    + intros [Hin Hint]. split; [done |]. destruct port; [by eexists | done].
    + intros [Hin [n ->]]. by split.
  - intros name alias Hin. split.
    + apply map_lookup_filter_None. right. intros port Hport.
      rewrite Hin in Hport. injection Hport as <-. cbn. tauto.
    + unfold unmapped_warnings. apply list_elem_of_omap.
      exists (name, PStr alias). split; [| done].
      by apply elem_of_map_to_list.
  - rewrite size_kept, <- (length_map_to_list resolved).
    apply unmapped_warnings_length.
Qed.

(** *** Frames *)

Section frames.

Variable σ : gmap loc (gmap string port_value).

Lemma framed_ret {A} (v : A) (Q : A → Prop) : Q v → framed σ (mret v) Q.
Proof. intros HQ w Hw. split; [done |]. by intros ? [= <-]. Qed.

Lemma framed_bind {A B} (m : M A) (k : A → M B) (Q : A → Prop) (Q' : B → Prop) :
  framed σ m Q → (∀ v, Q v → framed σ (k v) Q') → framed σ (m ≫= k) Q'.
Proof.
  intros Hm Hk w Hw. destruct (Hm w Hw) as [Hkeeps HQ].
  unfold mbind, M_bind. destruct (m w) as [[e | v] w1]; cbn in *.
  - split; [done |]. by intros ?.
  - by apply Hk; [apply HQ |].
Qed.

Lemma framed_lift {A} (r : result A) : framed σ (lift r) (λ _, True).
Proof. by intros w Hw. Qed.

Lemma framed_log_warning msg : framed σ (log_warning msg) (λ _, True).
Proof. by intros w Hw. Qed.

Lemma framed_read_dict l : framed σ (read_dict l) (λ _, True).
Proof. intros w Hw. unfold read_dict. by destruct (objs w !! l). Qed.

(** A new dictionary is none of the objects of [σ]. *)
Lemma framed_new_dict d : framed σ (new_dict d) (λ l, σ !! l = None).
Proof.
  intros w Hw. unfold new_dict. cbn. split.
  - intros l0 d0 Hl0. cbn. apply Hw in Hl0.
    rewrite lookup_insert_ne; [done | by eapply fresh_ne].
  - intros l [= <-]. destruct (σ !! fresh (dom (objs w))) as [d0 |] eqn:Hσ; [| done].
    apply Hw in Hσ. by rewrite fresh_lookup in Hσ.
Qed.

(** A write to a dictionary that is none of the objects of [σ]. *)
Lemma framed_write_dict l d : σ !! l = None → framed σ (write_dict l d) (λ _, True).
Proof.
  intros Hl w Hw. unfold write_dict. cbn. split; [| done].
  intros l0 d0 Hl0. cbn. rewrite lookup_insert_ne; [by apply Hw | congruence].
Qed.

Lemma framed_Map_get container : framed σ (Map_get container) (λ l, σ !! l = None).
Proof.
  unfold Map_get. eapply framed_bind; [apply framed_read_dict |].
  intros d _. apply framed_new_dict.
Qed.

Lemma framed_dict_update target other :
  σ !! target = None → framed σ (dict_update target other) (λ _, True).
Proof.
  intros Htarget. unfold dict_update.
  eapply framed_bind; [apply framed_read_dict |]. intros new _.
  eapply framed_bind; [apply framed_read_dict |]. intros old _.
  by apply framed_write_dict.
Qed.

Lemma framed_for_each {A} (xs : list A) (body : A → M unit) :
  (∀ x, framed σ (body x) (λ _, True)) → framed σ (for_each xs body) (λ _, True).
Proof.
  intros Hbody. induction xs as [| x xs IH]; cbn [for_each].
  - by apply framed_ret.
  - eapply framed_bind; [apply Hbody | by intros ??].
Qed.

Lemma framed_dict_items l : framed σ (dict_items l) (λ _, True).
Proof.
  unfold dict_items. eapply framed_bind; [apply framed_read_dict |].
  intros d _. by apply framed_ret.
Qed.

Lemma framed_resolve_ports mesos_task portmap :
  framed σ (resolve_ports PortResolver_resolve mesos_task portmap) (λ _, True).
Proof.
  unfold resolve_ports.
  eapply (framed_bind _ _ (λ l, σ !! l = None)).
  { destruct (has_announce mesos_task); [apply framed_Map_get | apply framed_new_dict]. }
  intros task_portmap Hfresh.
  eapply framed_bind; [by apply framed_dict_update |]. intros _ _.
  eapply framed_bind.
  { unfold call_PortResolver_resolve.
    eapply framed_bind; [apply framed_read_dict |]. intros d _.
    eapply framed_bind; [apply framed_lift |]. intros resolved _.
    apply framed_new_dict. }
  intros resolved_at _.
  eapply framed_bind; [apply framed_dict_items |]. intros items _.
  eapply framed_bind.
  { apply framed_for_each. intros [name [n | alias]];
      [by apply framed_ret | apply framed_log_warning]. }
  intros _ _.
  eapply framed_bind; [apply framed_dict_items |]. intros items' _.
  intros w Hw. split; [by apply (framed_new_dict _ w) | done].
Qed.

End frames.

(** C10: whether the binder returns or raises, every dictionary of the
    caller has afterwards the entries it had before: so has the
    scheduler's port map, and so has the mapping in the task's
    announcement.  When the binder returns, the overlay of line 83 has
    been written to a dictionary that did not exist before the call. *)
Theorem resolve_ports_inputs_unchanged mesos_task portmap w :
  let w' := (resolve_ports PortResolver_resolve mesos_task portmap w).2 in
  (∀ scheduled,
     objs w !! portmap = Some scheduled → objs w' !! portmap = Some scheduled)
  ∧ (∀ declared,
       objs w !! announce_portmap mesos_task = Some declared →
       objs w' !! announce_portmap mesos_task = Some declared)
  ∧ (∀ l d, objs w !! l = Some d → objs w' !! l = Some d)
  ∧ (∀ scheduled base resolved,
       objs w !! portmap = Some scheduled →
       announced mesos_task w = Some base →
       PortResolver_resolve (scheduled ∪ base) = inr resolved →
       ∃ merged_at,
         objs w !! merged_at = None
         ∧ objs w' !! merged_at = Some (scheduled ∪ base)).
Proof.
  intros w'.
  assert (Hkept : ∀ l d, objs w !! l = Some d → objs w' !! l = Some d).
  { intros l d Hl.
    destruct (framed_resolve_ports (objs w) mesos_task portmap w) as [Hkeeps _].
    - by intros ??.
    - by apply Hkeeps. }
  split; [by intros ?; apply Hkept |].
  split; [by intros ?; apply Hkept |].
  split; [done |].
  intros scheduled base resolved Hpm Hbase Hres.
  exists (fresh (dom (objs w))). split; [apply fresh_lookup |].
  subst w'. rewrite (resolve_ports_run _ _ _ _ _ _ Hpm Hbase Hres).
  cbn [snd objs].
  set (merged_at := fresh (dom (objs w))).
  set (σ1 := <[merged_at := scheduled ∪ base]> (objs w)).
  set (σ2 := <[fresh (dom σ1) := resolved]> σ1).
  assert (H1 : σ1 !! merged_at = Some (scheduled ∪ base)) by apply lookup_insert_eq.
  assert (H2 : σ2 !! merged_at = Some (scheduled ∪ base)).
  { unfold σ2. rewrite lookup_insert_ne; [done | by eapply fresh_ne]. }
  rewrite lookup_insert_ne; [done | by eapply fresh_ne].
Qed.

End binder_facts.

(** *** With a resolver that honours its contract *)

Section binder_contract.

Context {MesosTaskInstance : Type} `{!Announce MesosTaskInstance}.
Variable PortResolver_resolve :
  gmap string port_value → result (gmap string port_value).
Context `{!ResolverContract PortResolver_resolve}.

Implicit Types (mesos_task : MesosTaskInstance) (portmap : loc) (w : world).
Implicit Types (scheduled base resolved : gmap string port_value).

(** A mapping without aliases comes back as it is. *)
Lemma resolve_numeric m m' :
  (∀ name port, m !! name = Some port → ∃ n, port = PInt n) →
  PortResolver_resolve m = inr m' → m' = m.
Proof.
  intros Hnum Hres. apply map_eq. intros name.
  destruct (m !! name) as [port |] eqn:Hname.
  - destruct (Hnum _ _ Hname) as [n ->]. by eapply resolve_numbers.
  - apply not_elem_of_dom. rewrite (resolve_names _ _ Hres).
    by apply not_elem_of_dom.
Qed.

(** C4: the resolver is run on a mapping in which every entry of the
    scheduler's map stands, whatever the task declared under the same
    name, and which has the task's entry under the other names; the
    binder returns the [int] entries of what the resolver answers.  So
    a number allocated by the scheduler is in the final mapping; and
    with [http] declared as an alias, [https] as 443, and 8080
    allocated to [http], the final mapping is [http] 8080, [https]
    443. *)
Theorem resolve_ports_scheduler_wins mesos_task portmap w scheduled base :
  objs w !! portmap = Some scheduled →
  announced mesos_task w = Some base →
  ∃ final_at w' final merged resolved,
    resolve_ports PortResolver_resolve mesos_task portmap w = (inr final_at, w')
    ∧ objs w' !! final_at = Some final
    ∧ PortResolver_resolve merged = inr resolved
    ∧ final = filter (λ item, isinstance_int item.2) resolved
    ∧ (∀ name port, scheduled !! name = Some port → merged !! name = Some port)
    ∧ (∀ name, scheduled !! name = None → merged !! name = base !! name)
    ∧ (∀ name n, scheduled !! name = Some (PInt n) → final !! name = Some (PInt n))
    ∧ (scheduled = {[ "http" := PInt 8080 ]} →
       base = {[ "http" := PStr "aliased_to_https"; "https" := PInt 443 ]} →
       final = {[ "http" := PInt 8080; "https" := PInt 443 ]}).
Proof.
  intros Hpm Hbase.
  destruct (resolve_returns (scheduled ∪ base)) as [resolved Hres].
  pose proof (resolve_ports_run _ _ _ _ _ _ _ Hpm Hbase Hres) as Hrun.
  cbv zeta in Hrun. eexists _, _, _, (scheduled ∪ base), resolved.
  split; [exact Hrun |]. cbn [objs].
  split; [apply lookup_insert_eq |].
  split; [done |]. split; [done |].
  split; [by intros name port Hname; apply lookup_union_Some_l |].
  split; [by intros name Hname; apply lookup_union_r |].
  split.
  - intros name n Hname. apply map_lookup_filter_Some. split; [| done].
    eapply resolve_numbers; [done |]. by apply lookup_union_Some_l.
  - intros -> ->.
    assert (Hmerged : ({[ "http" := PInt 8080 ]} : gmap string port_value)
                      ∪ {[ "http" := PStr "aliased_to_https"; "https" := PInt 443 ]}
                      = {[ "http" := PInt 8080; "https" := PInt 443 ]}).
    { apply map_eq. intros name. rewrite lookup_union.
      destruct (decide (name = "http")) as [-> | Hhttp]; [done |].
      destruct (decide (name = "https")) as [-> | Hhttps]; [done |].
      by rewrite !lookup_insert_ne, !lookup_singleton_ne. }
    rewrite Hmerged in Hres.
    assert (Hnum : ∀ name port,
              ({[ "http" := PInt 8080; "https" := PInt 443 ]}
                 : gmap string port_value) !! name = Some port →
              ∃ n, port = PInt n).
    { intros name port Hname.
      apply lookup_insert_Some in Hname as [[_ <-] | [_ Hname]]; [by eexists |].
      apply lookup_singleton_Some in Hname as [_ <-]. by eexists. }
    rewrite (resolve_numeric _ _ Hnum Hres).
    apply map_filter_id. intros name port Hname. cbn.
    by destruct (Hnum _ _ Hname) as [n ->].
Qed.

(** C6: when its two references name dictionaries, the binder returns
    a dictionary; when neither the scheduler nor the task has an
    entry, and so when the task has no announcement and the
    scheduler's map is empty, that dictionary is empty. *)
Theorem resolve_ports_returns mesos_task portmap w scheduled base :
  objs w !! portmap = Some scheduled →
  announced mesos_task w = Some base →
  ∃ final_at w' final,
    resolve_ports PortResolver_resolve mesos_task portmap w = (inr final_at, w')
    ∧ objs w' !! final_at = Some final
    ∧ (scheduled = ∅ → base = ∅ → final = ∅)
    ∧ (scheduled = ∅ → has_announce mesos_task = false → final = ∅).
Proof.
  intros Hpm Hbase.
  destruct (resolve_returns (scheduled ∪ base)) as [resolved Hres].
  pose proof (resolve_ports_run _ _ _ _ _ _ _ Hpm Hbase Hres) as Hrun.
  cbv zeta in Hrun. eexists _, _, _.
  split; [exact Hrun |]. cbn [objs].
  split; [apply lookup_insert_eq |].
  assert (Hempty : scheduled = ∅ → base = ∅ →
                   filter (λ item, isinstance_int item.2) resolved = ∅).
  { intros -> ->. rewrite (left_id_L ∅ (∪)) in Hres.
    assert (Hnum : ∀ name port,
              (∅ : gmap string port_value) !! name = Some port →
              ∃ n, port = PInt n).
    { intros name port Hname. by rewrite lookup_empty in Hname. }
    rewrite (resolve_numeric _ _ Hnum Hres). apply map_filter_empty. }
  split; [done |].
  intros Hsched Hno. apply Hempty; [done |].
  unfold announced in Hbase. rewrite Hno in Hbase. by injection Hbase.
Qed.

End binder_contract.

(** ** The alias resolver of the specification *)

Lemma chase_number portmap fuel n : chase portmap fuel (PInt n) = PInt n.
Proof. by destruct fuel. Qed.

#[global] Instance resolve_aliases_contract : ResolverContract resolve_aliases.
Proof.
  split.
  - intros m. by eexists.
  - intros m m' [= <-]. apply dom_fmap_L.
  - intros m m' name n [= <-] Hname.
    by rewrite lookup_fmap, Hname; cbn; rewrite chase_number.
Qed.

(** ** The examples of section 8 *)

Example bind_ports_scheduled :
  Example.bind_ports Example.announcing_task
    (Example.world_of Example.scheduled Example.declared)
  = (inr (Some {[ "http" := PInt 8080; "https" := PInt 443 ]}), []).
Proof. vm_compute. reflexivity. Qed.

Example bind_ports_dangling :
  Example.bind_ports Example.announcing_task (Example.world_of ∅ Example.dangling)
  = (inr (Some ∅), ["Task has unmapped port: http => nope"]).
Proof. vm_compute. reflexivity. Qed.

Example bind_ports_nothing :
  Example.bind_ports Example.plain_task (Example.world_of ∅ ∅)
  = (inr (Some ∅), []).
Proof. vm_compute. reflexivity. Qed.

(** Closes an equation between closed terms by evaluation. *)
Ltac evaluated := vm_compute; reflexivity.

(** The scheduler's 8080 replaces the alias that the task declared
    for [http]. *)
Lemma resolve_ports_scheduler_wins_witness :
  (Example.bind_ports Example.announcing_task
     (Example.world_of Example.scheduled Example.declared)).1
  = inr (Some {[ "http" := PInt 8080; "https" := PInt 443 ]}).
Proof.
  destruct (resolve_ports_scheduler_wins resolve_aliases
              Example.announcing_task 1%positive
              (Example.world_of Example.scheduled Example.declared)
              Example.scheduled Example.declared ltac:(evaluated) ltac:(evaluated))
    as (final_at & w' & final & merged & resolved
        & Hrun & Hfinal & _ & _ & _ & _ & _ & Hexample).
  unfold Example.bind_ports. rewrite Hrun. cbn. rewrite Hfinal.
  by rewrite (Hexample eq_refl eq_refl).
Defined.

(** The dangling alias of section 8. *)
Lemma resolve_ports_keeps_ints_witness :
  ∃ final_at w' final logged,
    resolve_ports resolve_aliases Example.announcing_task 1%positive
      (Example.world_of ∅ Example.dangling) = (inr final_at, w')
    ∧ objs w' !! final_at = Some final
    ∧ warnings w' = ([] ++ logged)%list
    ∧ (∀ name port,
         final !! name = Some port
         ↔ Example.dangling !! name = Some port ∧ ∃ n, port = PInt n)
    ∧ (∀ name alias,
         Example.dangling !! name = Some (PStr alias) →
         final !! name = None ∧ unmapped_port name alias ∈ logged)
    ∧ (length logged + size final)%nat = size Example.dangling.
Proof.
  exact (resolve_ports_keeps_ints resolve_aliases
           Example.announcing_task 1%positive
           (Example.world_of ∅ Example.dangling) ∅ Example.dangling
           Example.dangling ltac:(evaluated) ltac:(evaluated) ltac:(evaluated)).
Defined.

(** A negative number allocated by the scheduler is kept. *)
Lemma negative_port_kept :
  ¬ keeps_exactly_nonnegative resolve_aliases
      Example.plain_task 1%positive (Example.world_of Example.negative ∅).
Proof.
  intros Hstated.
  pose proof (resolve_ports_run resolve_aliases Example.plain_task 1%positive
                (Example.world_of Example.negative ∅) Example.negative ∅
                Example.negative ltac:(evaluated) ltac:(evaluated) ltac:(evaluated)) as Hrun.
  cbv zeta in Hrun.
  pose proof (Hstated _ _ _ _ _ _ ltac:(evaluated) ltac:(evaluated) ltac:(evaluated) Hrun
                (lookup_insert_eq _ _ _) "http" (PInt (-1))) as [Hkept _].
  destruct Hkept as [_ (n & [= <-] & Hn)]; [| lia].
  apply map_lookup_filter_Some. by split.
Qed.

(** Nothing declared and nothing allocated. *)
Lemma resolve_ports_returns_witness :
  ∃ final_at w' final,
    resolve_ports resolve_aliases Example.plain_task 1%positive
      (Example.world_of ∅ ∅) = (inr final_at, w')
    ∧ objs w' !! final_at = Some final
    ∧ final = ∅.
Proof.
  destruct (resolve_ports_returns resolve_aliases Example.plain_task 1%positive
              (Example.world_of ∅ ∅) ∅ ∅ ltac:(evaluated) ltac:(evaluated))
    as (final_at & w' & final & Hrun & Hfinal & Hempty & _).
  exists final_at, w', final. split; [done |]. split; [done |].
  by apply Hempty.
Defined.

(** After the run of section 8, the scheduler's map and the task's
    declaration are what they were. *)
Lemma resolve_ports_inputs_unchanged_witness :
  let w' := (resolve_ports resolve_aliases Example.announcing_task 1%positive
               (Example.world_of Example.scheduled Example.declared)).2 in
  objs w' !! 1%positive = Some Example.scheduled
  ∧ objs w' !! 2%positive = Some Example.declared.
Proof.
  intros w'.
  pose proof (resolve_ports_inputs_unchanged resolve_aliases
                Example.announcing_task 1%positive
                (Example.world_of Example.scheduled Example.declared))
    as (Hscheduled & Hdeclared & _).
  split.
  - exact (Hscheduled Example.scheduled ltac:(evaluated)).
  - exact (Hdeclared Example.declared ltac:(evaluated)).
Defined.

(** * Further properties *)

(** ** The assignment decoder *)

Section decoder_more.

Context {TaskConfig : Type}.
Variable thrift_deserialize : list Byte.byte → result (AssignedTask TaskConfig).

(** X1: the decoder returns a record exactly when the deserialiser
    returned it: no record is made up, altered or withheld. *)
Theorem decode_returns_iff t assigned_task :
  assigned_task_from_mesos_task thrift_deserialize t = inr assigned_task
  ↔ thrift_deserialize (data t) = inr assigned_task.
Proof.
  unfold assigned_task_from_mesos_task, try_except.
  destruct (thrift_deserialize (data t)) as [e | a]; [| done].
  by destruct (catches [EOFError; TException] e).
Qed.

(** X2: no [EOFError] and no [TException], nor a subclass of either,
    comes out of the decoder, whatever the deserialiser raises. *)
Theorem decode_no_thrift_error t e :
  assigned_task_from_mesos_task thrift_deserialize t = inl e →
  catches [EOFError; TException] e = false.
Proof.
  unfold assigned_task_from_mesos_task, try_except.
  destruct (thrift_deserialize (data t)) as [e0 | a]; [| done].
  destruct (catches [EOFError; TException] e0) eqn:Hc.
  - by intros [= <-].
  - by intros [= <-].
Qed.

End decoder_more.

Lemma decode_returns_iff_witness :
  assigned_task_from_mesos_task Fake.thrift_deserialize (mkTaskInfo [Byte.x07])
  = inr (mkAssignedTask (Some Fake.job_blob) 7).
Proof.
  apply (proj2 (decode_returns_iff Fake.thrift_deserialize
                  (mkTaskInfo [Byte.x07])
                  (mkAssignedTask (Some Fake.job_blob) 7))).
  reflexivity.
Defined.

Lemma decode_no_thrift_error_witness :
  catches [EOFError; TException] (DecodeError (PyExn EOFError "")) = false.
Proof.
  apply (decode_no_thrift_error Fake.thrift_deserialize (mkTaskInfo [])).
  reflexivity.
Defined.

(** ** The task configuration resolver *)

Section resolver_more.

Context {TaskConfig MesosJob MesosTaskInstance Ref : Type}.
Context `{!RefOps Ref, !Config TaskConfig MesosJob MesosTaskInstance Ref}.

Implicit Types (assigned_task : AssignedTask TaskConfig) (refs rest : list Ref).

Lemma py_in_scalar key json_blob :
  scalar json_blob = true →
  ∃ e, py_in key json_blob = inl e ∧ exn_type e = TypeError.
Proof. destruct json_blob; try done; intros _; by eexists. Qed.

Lemma check_refs_iff refs rest :
  check_refs refs rest = inr () ↔ Forall whitelisted rest.
Proof.
  split.
  - intros Hok. destruct (decide (Forall whitelisted rest)) as [| Hnot]; [done |].
    by rewrite (check_refs_offending _ _ Hnot) in Hok.
  - apply check_refs_whitelisted.
Qed.

(** X3: a configuration that is returned has a history: the thermos
    configuration was there and not empty, it parsed, and either it has
    [instance] and is the decoded instance, or it has not and is what
    the engine made of the decoded job, every ref that the engine left
    being whitelisted. *)
Theorem resolve_returns_inversion assigned_task mti :
  mesos_task_instance_from_assigned_task assigned_task = inr mti →
  ∃ thermos_task json_blob,
    resolve_thermos_config (task assigned_task) = Some thermos_task
    ∧ thermos_task ≠ ""
    ∧ json_loads thermos_task = inr json_blob
    ∧ ((py_in "instance" json_blob = inr true
        ∧ MesosTaskInstance_json_loads thermos_task = inr mti)
       ∨ (py_in "instance" json_blob = inr false
          ∧ ∃ job refs,
              MesosJob_json_loads thermos_task = inr job
              ∧ task_instance_from_job job (instanceId assigned_task)
                = inr (mti, refs)
              ∧ Forall whitelisted refs)).
Proof.
  intros Hret.
  destruct (resolve_thermos_config (task assigned_task))
    as [thermos_task |] eqn:Hcfg; last first.
  { unfold mesos_task_instance_from_assigned_task in Hret. by rewrite Hcfg in Hret. }
  destruct (decide (thermos_task = "")) as [-> | Hne].
  { unfold mesos_task_instance_from_assigned_task in Hret. by rewrite Hcfg in Hret. }
  rewrite (resolve_unfold _ _ Hcfg Hne) in Hret.
  exists thermos_task.
  destruct (json_loads thermos_task) as [e | json_blob] eqn:Hparse.
  { unfold try_except in Hret. by destruct (catches _ e). }
  exists json_blob. do 3 (split; [done |]). cbn in Hret.
  destruct (py_in "instance" json_blob) as [e | [|]] eqn:Hin; [done | by left |].
  right. split; [done |]. cbn in Hret.
  destruct (MesosJob_json_loads thermos_task) as [e | job] eqn:Hjob; [done |].
  cbn in Hret.
  destruct (task_instance_from_job job (instanceId assigned_task))
    as [e | [mti' refs]] eqn:Hinst; [done |].
  cbn in Hret. exists job, refs.
  destruct (check_refs refs refs) as [e | []] eqn:Hcheck; [done |].
  cbn in Hret. injection Hret as ->.
  split; [done |]. split; [done |]. by apply (check_refs_iff refs refs).
Qed.

(** X4: when the configuration parses to [None], a boolean or a
    number, the membership test of line 53 (line 31 in the job reader)
    raises a [TypeError], and both functions let it through: it is not
    turned into the [ValueError] of a malformed configuration. *)
Theorem resolve_scalar_type_error assigned_task thermos_task json_blob :
  resolve_thermos_config (task assigned_task) = Some thermos_task →
  thermos_task ≠ "" →
  json_loads thermos_task = inr json_blob →
  scalar json_blob = true →
  ∃ e, exn_type e = TypeError
       ∧ mesos_task_instance_from_assigned_task assigned_task = inl e
       ∧ mesos_job_from_assigned_task assigned_task = inl e.
Proof.
  intros Hcfg Hne Hparse Hscalar.
  destruct (py_in_scalar "instance" _ Hscalar) as (e & Hin & Htype).
  exists e. split; [done |]. split.
  - rewrite (resolve_unfold _ _ Hcfg Hne), Hparse. cbn. by rewrite Hin.
  - unfold mesos_job_from_assigned_task. rewrite Hcfg, Hparse. by rewrite Hin.
Qed.

(** X5: an exception of the parser that is neither a [TypeError] nor
    a [ValueError] comes out of both functions as it is. *)
Theorem resolve_parser_error_propagates assigned_task thermos_task e :
  resolve_thermos_config (task assigned_task) = Some thermos_task →
  thermos_task ≠ "" →
  json_loads thermos_task = inl e →
  catches [TypeError; ValueError] e = false →
  mesos_task_instance_from_assigned_task assigned_task = inl e
  ∧ mesos_job_from_assigned_task assigned_task = inl e.
Proof.
  intros Hcfg Hne Hparse Hc. split.
  - rewrite (resolve_unfold _ _ Hcfg Hne), Hparse.
    by rewrite try_except_propagates.
  - unfold mesos_job_from_assigned_task. by rewrite Hcfg, Hparse, Hc.
Qed.

(** X6: on a job template, an exception of the job decoder or of the
    instantiation engine comes out as it is; the refs are not looked
    at. *)
Theorem resolve_job_error_propagates assigned_task thermos_task json_blob e :
  resolve_thermos_config (task assigned_task) = Some thermos_task →
  thermos_task ≠ "" →
  json_loads thermos_task = inr json_blob →
  py_in "instance" json_blob = inr false →
  MesosJob_json_loads thermos_task = inl e
  ∨ (∃ job, MesosJob_json_loads thermos_task = inr job
            ∧ task_instance_from_job job (instanceId assigned_task) = inl e) →
  mesos_task_instance_from_assigned_task assigned_task = inl e.
Proof.
  intros Hcfg Hne Hparse Hin Hraise.
  rewrite (resolve_unfold _ _ Hcfg Hne), Hparse. cbn. rewrite Hin. cbn.
  destruct Hraise as [-> | (job & -> & Hinst)]; [done |].
  cbn. by rewrite Hinst.
Qed.

(** X7: where the instance reader raises for a missing or a malformed
    configuration, and where it takes the configuration for an
    instance, the job reader returns [None] and does not raise. *)
Theorem job_absent assigned_task :
  resolve_thermos_config (task assigned_task) = None
  ∨ (∃ thermos_task e,
       resolve_thermos_config (task assigned_task) = Some thermos_task
       ∧ json_loads thermos_task = inl e
       ∧ catches [TypeError; ValueError] e = true)
  ∨ (∃ thermos_task json_blob,
       resolve_thermos_config (task assigned_task) = Some thermos_task
       ∧ json_loads thermos_task = inr json_blob
       ∧ py_in "instance" json_blob = inr true) →
  mesos_job_from_assigned_task assigned_task = inr None.
Proof.
  unfold mesos_job_from_assigned_task.
  intros [-> | [(thermos_task & e & -> & -> & ->)
               | (thermos_task & json_blob & -> & -> & Hin)]]; [done | done |].
  by rewrite Hin.
Qed.

(** X8: the two readers agree on jobs: when the job reader returns a
    job, the instance reader hands this very job and the instance id
    to the engine, and its outcome is the engine's, followed by the
    check of the refs. *)
Theorem job_then_instance assigned_task job :
  mesos_job_from_assigned_task assigned_task = inr (Some job) →
  resolve_thermos_config (task assigned_task) ≠ Some "" →
  mesos_task_instance_from_assigned_task assigned_task
  = ('(mti, refs) ← task_instance_from_job job (instanceId assigned_task);
     check_refs refs refs;; mret mti).
Proof.
  intros Hjob Hne. unfold mesos_job_from_assigned_task in Hjob.
  destruct (resolve_thermos_config (task assigned_task))
    as [thermos_task |] eqn:Hcfg; [| done].
  assert (Hne' : thermos_task ≠ "") by congruence.
  rewrite (resolve_unfold _ _ Hcfg Hne').
  destruct (json_loads thermos_task) as [e | json_blob].
  { by destruct (catches _ e). }
  cbn in *.
  destruct (py_in "instance" json_blob) as [e | [|]]; [done | done |].
  cbn in *.
  destruct (MesosJob_json_loads thermos_task) as [e | job']; [done |].
  cbn in *. by injection Hjob as ->.
Qed.

(** X9: the verdict on the refs does not depend on the order in which
    the engine lists them, nor on repetitions: two lists with the same
    members pass or fail together. *)
Theorem check_refs_order refs refs' :
  (∀ ref, ref ∈ refs ↔ ref ∈ refs') →
  check_refs refs refs = inr () ↔ check_refs refs' refs' = inr ().
Proof.
  intros Hsame. rewrite !check_refs_iff, !Forall_forall.
  split; intros Hall ref Href; apply Hall; by apply Hsame.
Qed.

End resolver_more.

Lemma resolve_returns_inversion_witness :
  ∃ thermos_task json_blob,
    Some Fake.job_blob = Some thermos_task
    ∧ thermos_task ≠ ""
    ∧ Fake.parse thermos_task = inr json_blob
    ∧ ((py_in "instance" json_blob = inr true
        ∧ inr thermos_task = (inr Fake.job_blob : result string))
       ∨ (py_in "instance" json_blob = inr false
          ∧ ∃ job refs,
              inr thermos_task = (inr job : result string)
              ∧ inr (job, Fake.deferred_refs)
                = (inr (Fake.job_blob, refs) : result (string * list Pystachio.Ref))
              ∧ Forall whitelisted refs)).
Proof.
  exact (resolve_returns_inversion (RefOps0 := Pystachio.ops) (Config0 := Fake.config Fake.deferred_refs)
           (Fake.assigned (Some Fake.job_blob)) Fake.job_blob ltac:(evaluated)).
Defined.

(** The text [5] is valid JSON and no configuration. *)
Lemma resolve_scalar_type_error_witness :
  ∃ e, exn_type e = TypeError
       ∧ @mesos_task_instance_from_assigned_task _ _ _ _ Pystachio.ops
           (Faulty.config Faulty.parse_five Faulty.reject_job Faulty.broken_engine)
           (Fake.assigned (Some "5")) = inl e
       ∧ @mesos_job_from_assigned_task _ _ _ _
           (Faulty.config Faulty.parse_five Faulty.reject_job Faulty.broken_engine)
           (Fake.assigned (Some "5")) = inl e.
Proof.
  exact (resolve_scalar_type_error
           (RefOps0 := Pystachio.ops) (Config0 := Faulty.config Faulty.parse_five Faulty.reject_job
                         Faulty.broken_engine)
           (Fake.assigned (Some "5")) "5" (JInt 5)
           eq_refl ltac:(discriminate) eq_refl eq_refl).
Defined.

Lemma resolve_parser_error_propagates_witness :
  @mesos_task_instance_from_assigned_task _ _ _ _ Pystachio.ops
    (Faulty.config Faulty.parse_lost Faulty.reject_job Faulty.broken_engine)
    (Fake.assigned (Some "{}")) = inl (PyExn KeyError "thermos")
  ∧ @mesos_job_from_assigned_task _ _ _ _
      (Faulty.config Faulty.parse_lost Faulty.reject_job Faulty.broken_engine)
      (Fake.assigned (Some "{}")) = inl (PyExn KeyError "thermos").
Proof.
  exact (resolve_parser_error_propagates
           (RefOps0 := Pystachio.ops) (Config0 := Faulty.config Faulty.parse_lost Faulty.reject_job
                         Faulty.broken_engine)
           (Fake.assigned (Some "{}")) "{}" (PyExn KeyError "thermos")
           eq_refl ltac:(discriminate) eq_refl eq_refl).
Defined.

(** A job that the decoder rejects, and a job on which the engine
    fails. *)
Lemma resolve_job_error_propagates_witness :
  @mesos_task_instance_from_assigned_task _ _ _ _ Pystachio.ops
    (Faulty.config Faulty.parse_object Faulty.reject_job Faulty.broken_engine)
    (Fake.assigned (Some "{}"))
  = inl (PyExn TypeError "MesosJob: unexpected field")
  ∧ @mesos_task_instance_from_assigned_task _ _ _ _ Pystachio.ops
      (Faulty.config Faulty.parse_object (λ s, mret s) Faulty.broken_engine)
      (Fake.assigned (Some "{}"))
    = inl (PyExn KeyError "instance").
Proof.
  split.
  - exact (resolve_job_error_propagates
             (RefOps0 := Pystachio.ops) (Config0 := Faulty.config Faulty.parse_object Faulty.reject_job
                           Faulty.broken_engine)
             (Fake.assigned (Some "{}")) "{}" (JDict []) _
             eq_refl ltac:(discriminate) eq_refl eq_refl (or_introl eq_refl)).
  - exact (resolve_job_error_propagates
             (RefOps0 := Pystachio.ops) (Config0 := Faulty.config Faulty.parse_object (λ s, mret s)
                           Faulty.broken_engine)
             (Fake.assigned (Some "{}")) "{}" (JDict []) _
             eq_refl ltac:(discriminate) eq_refl eq_refl
             (or_intror (ex_intro _ "{}" (conj eq_refl eq_refl)))).
Defined.

(** No configuration, a text that does not parse, and an instance. *)
Lemma job_absent_witness :
  @mesos_job_from_assigned_task _ _ _ _ (Fake.config []) (Fake.assigned None)
  = inr None
  ∧ @mesos_job_from_assigned_task _ _ _ _ (Fake.config [])
      (Fake.assigned (Some "{not json")) = inr None
  ∧ @mesos_job_from_assigned_task _ _ _ _ (Fake.config [])
      (Fake.assigned (Some Fake.instance_blob)) = inr None.
Proof.
  split; [| split].
  - exact (job_absent (Config0 := Fake.config []) (Fake.assigned None)
             (or_introl eq_refl)).
  - apply (job_absent (Config0 := Fake.config [])
             (Fake.assigned (Some "{not json"))).
    right; left.
    exists "{not json", (PyExn ValueError "No JSON object could be decoded").
    by repeat split.
  - apply (job_absent (Config0 := Fake.config [])
             (Fake.assigned (Some Fake.instance_blob))).
    right; right.
    exists Fake.instance_blob, (JDict [("instance", JInt 0)]).
    by repeat split.
Defined.

Lemma job_then_instance_witness :
  Fake.resolve Fake.deferred_refs (Some Fake.job_blob)
  = ('(mti, refs) ← inr (Fake.job_blob, Fake.deferred_refs);
     check_refs refs refs;; mret mti).
Proof.
  exact (job_then_instance (RefOps0 := Pystachio.ops) (Config0 := Fake.config Fake.deferred_refs)
           (Fake.assigned (Some Fake.job_blob)) Fake.job_blob
           eq_refl ltac:(discriminate)).
Defined.

(** The deferred refs, listed backwards and twice. *)
Lemma check_refs_order_witness :
  check_refs Fake.deferred_refs Fake.deferred_refs = inr ()
  ↔ check_refs (reverse Fake.deferred_refs ++ Fake.deferred_refs)
      (reverse Fake.deferred_refs ++ Fake.deferred_refs) = inr ().
Proof.
  apply (check_refs_order Fake.deferred_refs
           (reverse Fake.deferred_refs ++ Fake.deferred_refs)).
  intros ref. rewrite elem_of_app, elem_of_reverse. tauto.
Defined.

(** ** The port binder *)

Section binder_more.

Context {MesosTaskInstance : Type} `{!Announce MesosTaskInstance}.
Variable PortResolver_resolve :
  gmap string port_value → result (gmap string port_value).

Implicit Types (mesos_task : MesosTaskInstance) (portmap : loc) (w : world).
Implicit Types (scheduled base resolved : gmap string port_value).

(** The run when the resolver raises: the merged dictionary has been
    allocated, and nothing else happened. *)
Lemma resolve_ports_run_raises mesos_task portmap w scheduled base e :
  objs w !! portmap = Some scheduled →
  announced mesos_task w = Some base →
  PortResolver_resolve (scheduled ∪ base) = inl e →
  resolve_ports PortResolver_resolve mesos_task portmap w
  = (inl e,
     World (<[fresh (dom (objs w)) := scheduled ∪ base]> (objs w)) (warnings w)).
Proof.
  intros Hpm Hbase Hres. unfold resolve_ports.
  erewrite bind_returns; last first.
  { rewrite (task_portmap_fresh _ _ _ Hbase). reflexivity. }
  erewrite bind_returns; last by apply dict_update_fresh.
  unfold call_PortResolver_resolve.
  erewrite bind_raises; [reflexivity |].
  erewrite bind_returns; last first.
  { apply read_dict_Some. cbn. apply lookup_insert_eq. }
  erewrite bind_raises; [reflexivity |].
  unfold lift. by rewrite Hres.
Qed.

(** What the task declares is read off dictionaries that a run
    keeps. *)
Lemma announced_kept mesos_task w w' base :
  keeps (objs w) w' →
  announced mesos_task w = Some base → announced mesos_task w' = Some base.
Proof.
  unfold announced. intros Hkeeps.
  destruct (has_announce mesos_task); [apply Hkeeps | done].
Qed.

Lemma resolve_ports_keeps mesos_task portmap w :
  keeps (objs w) (resolve_ports PortResolver_resolve mesos_task portmap w).2.
Proof.
  destruct (framed_resolve_ports PortResolver_resolve (objs w)
              mesos_task portmap w) as [Hkeeps _]; [by intros ?? | done].
Qed.

(** X10: an exception of the alias resolver comes out of the binder
    as it is: the binder has no handler.  By then nothing has been
    logged, and the caller's dictionaries are untouched. *)
Theorem resolve_ports_resolver_raises mesos_task portmap w scheduled base e :
  objs w !! portmap = Some scheduled →
  announced mesos_task w = Some base →
  PortResolver_resolve (scheduled ∪ base) = inl e →
  ∃ w', resolve_ports PortResolver_resolve mesos_task portmap w = (inl e, w')
        ∧ warnings w' = warnings w
        ∧ ∀ l d, objs w !! l = Some d → objs w' !! l = Some d.
Proof.
  intros Hpm Hbase Hres. eexists. split.
  - by apply resolve_ports_run_raises.
  - split; [done |]. cbn. intros l d Hl.
    rewrite lookup_insert_ne; [done | by eapply fresh_ne].
Qed.

(** The run when the resolver returns, without the addresses. *)
Lemma resolve_ports_final mesos_task portmap w scheduled base resolved :
  objs w !! portmap = Some scheduled →
  announced mesos_task w = Some base →
  PortResolver_resolve (scheduled ∪ base) = inr resolved →
  ∃ final_at w',
    resolve_ports PortResolver_resolve mesos_task portmap w = (inr final_at, w')
    ∧ objs w' !! final_at
      = Some (filter (λ item, isinstance_int item.2) resolved)
    ∧ objs w !! final_at = None
    ∧ keeps (objs w) w'.
Proof.
  intros Hpm Hbase Hres.
  pose proof (resolve_ports_run _ _ _ _ _ _ _ Hpm Hbase Hres) as Hrun.
  cbv zeta in Hrun.
  pose proof (resolve_ports_keeps mesos_task portmap w) as Hkeeps.
  rewrite Hrun in Hkeeps. cbn [snd] in Hkeeps.
  eexists _, _. split; [exact Hrun |].
  split; [apply lookup_insert_eq |]. split; [| exact Hkeeps].
  set (σ1 := <[fresh (dom (objs w)) := scheduled ∪ base]> (objs w)).
  set (σ2 := <[fresh (dom σ1) := resolved]> σ1).
  destruct (objs w !! fresh (dom σ2)) as [d |] eqn:Hold; [| done].
  assert (H1 : σ1 !! fresh (dom σ2) = Some d).
  { unfold σ1. rewrite lookup_insert_ne; [done | by eapply fresh_ne]. }
  assert (H2 : σ2 !! fresh (dom σ2) = Some d).
  { unfold σ2. rewrite lookup_insert_ne; [done | by eapply fresh_ne]. }
  by rewrite fresh_lookup in H2.
Qed.

(** X11: the dictionary that the binder returns is a new object: it
    is none of the caller's dictionaries, so neither the scheduler's
    port map nor any other; writing to it later cannot reach them. *)
Theorem resolve_ports_result_fresh mesos_task portmap w scheduled base resolved :
  objs w !! portmap = Some scheduled →
  announced mesos_task w = Some base →
  PortResolver_resolve (scheduled ∪ base) = inr resolved →
  ∃ final_at w',
    resolve_ports PortResolver_resolve mesos_task portmap w = (inr final_at, w')
    ∧ objs w !! final_at = None
    ∧ final_at ≠ portmap.
Proof.
  intros Hpm Hbase Hres.
  destruct (resolve_ports_final _ _ _ _ _ _ Hpm Hbase Hres)
    as (final_at & w' & Hrun & _ & Hnew & _).
  exists final_at, w'. split; [done |]. split; [done |]. congruence.
Qed.

(** X12: what the task declares under a name that the scheduler
    allocates has no effect, whatever the resolver does: two tasks
    whose declarations agree on the other names both raise the same
    exception, with nothing logged, or both return a dictionary, with
    the same entries and, up to their order, the same lines logged. *)
Theorem resolve_ports_declared_overridden
    mesos_task mesos_task' portmap w scheduled base base' :
  objs w !! portmap = Some scheduled →
  announced mesos_task w = Some base →
  announced mesos_task' w = Some base' →
  (∀ name, scheduled !! name = None → base !! name = base' !! name) →
  match resolve_ports PortResolver_resolve mesos_task portmap w,
        resolve_ports PortResolver_resolve mesos_task' portmap w with
  | (inl e, w1), (inl e', w2) =>
      e = e' ∧ warnings w1 = warnings w ∧ warnings w2 = warnings w
  | (inr final_at, w1), (inr final_at', w2) =>
      (∃ final, objs w1 !! final_at = Some final
                ∧ objs w2 !! final_at' = Some final)
      ∧ warnings w1 ≡ₚ warnings w2
  | _, _ => False
  end.
Proof.
  intros Hpm Hbase Hbase' Hagree.
  assert (Hmerged : scheduled ∪ base = scheduled ∪ base').
  { apply map_eq. intros name. rewrite !lookup_union.
    destruct (scheduled !! name) as [port |] eqn:Hname.
    - by destruct (base !! name), (base' !! name).
    - by rewrite (Hagree _ Hname). }
  destruct (PortResolver_resolve (scheduled ∪ base)) as [e | resolved] eqn:Hres.
  - rewrite (resolve_ports_run_raises _ _ _ _ _ _ Hpm Hbase Hres).
    rewrite Hmerged in Hres.
    by rewrite (resolve_ports_run_raises _ _ _ _ _ _ Hpm Hbase' Hres).
  - rewrite (resolve_ports_run _ _ _ _ _ _ _ Hpm Hbase Hres).
    rewrite Hmerged in Hres.
    rewrite (resolve_ports_run _ _ _ _ _ _ _ Hpm Hbase' Hres).
    cbn [objs warnings]. split; [| done].
    eexists. split; apply lookup_insert_eq.
Qed.

(** X13: the binder can be run again: a second run on the same
    arguments, in the store that the first run left, returns a second
    dictionary with the same entries, and the first one still has
    them. *)
Theorem resolve_ports_repeatable mesos_task portmap w scheduled base resolved :
  objs w !! portmap = Some scheduled →
  announced mesos_task w = Some base →
  PortResolver_resolve (scheduled ∪ base) = inr resolved →
  ∃ first w1 second w2 final,
    resolve_ports PortResolver_resolve mesos_task portmap w = (inr first, w1)
    ∧ resolve_ports PortResolver_resolve mesos_task portmap w1 = (inr second, w2)
    ∧ objs w2 !! first = Some final
    ∧ objs w2 !! second = Some final
    ∧ first ≠ second.
Proof.
  intros Hpm Hbase Hres.
  destruct (resolve_ports_final _ _ _ _ _ _ Hpm Hbase Hres)
    as (first & w1 & Hrun & Hfirst & _ & Hkeeps).
  destruct (resolve_ports_final mesos_task portmap w1 scheduled base resolved)
    as (second & w2 & Hrun' & Hsecond & Hnew & Hkeeps');
    [by apply Hkeeps | by eapply announced_kept | done |].
  exists first, w1, second, w2, (filter (λ item, isinstance_int item.2) resolved).
  split; [done |]. split; [done |].
  split; [by apply Hkeeps' |]. split; [done |]. congruence.
Qed.

Lemma unmapped_warnings_numeric (items : list (string * port_value)) :
  Forall (λ item, isinstance_int item.2) items → unmapped_warnings items = [].
Proof.
  induction 1 as [| [name [n | alias]] items Hint _ IH]; [done | | done].
  cbn [unmapped_warnings omap list_omap]. exact IH.
Qed.

(** X14: when the resolver answers with numbers only, the binder
    returns a dictionary with exactly the entries of that answer and
    the log is as it was: nothing is dropped and nothing is
    reported. *)
Theorem resolve_ports_numeric mesos_task portmap w scheduled base resolved :
  objs w !! portmap = Some scheduled →
  announced mesos_task w = Some base →
  PortResolver_resolve (scheduled ∪ base) = inr resolved →
  (∀ name port, resolved !! name = Some port → ∃ n, port = PInt n) →
  ∃ final_at w',
    resolve_ports PortResolver_resolve mesos_task portmap w = (inr final_at, w')
    ∧ objs w' !! final_at = Some resolved
    ∧ warnings w' = warnings w.
Proof.
  intros Hpm Hbase Hres Hnum.
  pose proof (resolve_ports_run _ _ _ _ _ _ _ Hpm Hbase Hres) as Hrun.
  cbv zeta in Hrun. eexists _, _. split; [exact Hrun |]. cbn [objs warnings].
  split.
  - rewrite lookup_insert_eq. f_equal. apply map_filter_id.
    intros name port Hname. cbn. by destruct (Hnum _ _ Hname) as [n ->].
  - rewrite unmapped_warnings_numeric; [apply app_nil_r |].
    apply Forall_forall. intros [name port] Hin.
    apply elem_of_map_to_list in Hin. cbn.
    by destruct (Hnum _ _ Hin) as [n ->].
Qed.

End binder_more.

(** A resolver that finds a cycle in what the task of section 8
    declares. *)
Lemma resolve_ports_resolver_raises_witness :
  ∃ w', resolve_ports Faulty.cyclic Example.announcing_task 1%positive
          (Example.world_of Example.scheduled Example.declared)
        = (inl (PyExn Exception "Found cycle in portmap!"), w')
        ∧ warnings w' = []
        ∧ ∀ l d,
            objs (Example.world_of Example.scheduled Example.declared) !! l = Some d →
            objs w' !! l = Some d.
Proof.
  exact (resolve_ports_resolver_raises Faulty.cyclic Example.announcing_task
           1%positive (Example.world_of Example.scheduled Example.declared)
           Example.scheduled Example.declared _
           ltac:(evaluated) ltac:(evaluated) eq_refl).
Defined.

Lemma resolve_ports_result_fresh_witness :
  ∃ final_at w',
    resolve_ports resolve_aliases Example.announcing_task 1%positive
      (Example.world_of Example.scheduled Example.declared) = (inr final_at, w')
    ∧ objs (Example.world_of Example.scheduled Example.declared) !! final_at = None
    ∧ final_at ≠ 1%positive.
Proof.
  exact (resolve_ports_result_fresh resolve_aliases Example.announcing_task
           1%positive (Example.world_of Example.scheduled Example.declared)
           Example.scheduled Example.declared _
           ltac:(evaluated) ltac:(evaluated) eq_refl).
Defined.

(** The task of section 8 and a task without announcement, when the
    scheduler allocates both [http] and [https]. *)
Lemma resolve_ports_declared_overridden_witness :
  match resolve_ports resolve_aliases Example.announcing_task 1%positive
          (Example.world_of {[ "http" := PInt 8080; "https" := PInt 8443 ]}
             Example.declared),
        resolve_ports resolve_aliases Example.plain_task 1%positive
          (Example.world_of {[ "http" := PInt 8080; "https" := PInt 8443 ]}
             Example.declared) with
  | (inl e, w1), (inl e', w2) => e = e' ∧ warnings w1 = [] ∧ warnings w2 = []
  | (inr final_at, w1), (inr final_at', w2) =>
      (∃ final, objs w1 !! final_at = Some final
                ∧ objs w2 !! final_at' = Some final)
      ∧ warnings w1 ≡ₚ warnings w2
  | _, _ => False
  end.
Proof.
  apply (resolve_ports_declared_overridden resolve_aliases
           Example.announcing_task Example.plain_task 1%positive
           (Example.world_of {[ "http" := PInt 8080; "https" := PInt 8443 ]}
              Example.declared)
           {[ "http" := PInt 8080; "https" := PInt 8443 ]} Example.declared ∅
           ltac:(evaluated) ltac:(evaluated) ltac:(evaluated)).
  intros name Hname.
  destruct (decide (name = "http")) as [-> | Hhttp]; [done |].
  destruct (decide (name = "https")) as [-> | Hhttps]; [done |].
  unfold Example.declared.
  by rewrite !lookup_insert_ne, lookup_singleton_ne, lookup_empty.
Defined.

Lemma resolve_ports_repeatable_witness :
  ∃ first w1 second w2 final,
    resolve_ports resolve_aliases Example.announcing_task 1%positive
      (Example.world_of Example.scheduled Example.declared) = (inr first, w1)
    ∧ resolve_ports resolve_aliases Example.announcing_task 1%positive w1
      = (inr second, w2)
    ∧ objs w2 !! first = Some final
    ∧ objs w2 !! second = Some final
    ∧ first ≠ second.
Proof.
  exact (resolve_ports_repeatable resolve_aliases Example.announcing_task
           1%positive (Example.world_of Example.scheduled Example.declared)
           Example.scheduled Example.declared _
           ltac:(evaluated) ltac:(evaluated) eq_refl).
Defined.

Lemma resolve_ports_numeric_witness :
  ∃ final_at w',
    resolve_ports resolve_aliases Example.announcing_task 1%positive
      (Example.world_of Example.scheduled Example.declared) = (inr final_at, w')
    ∧ objs w' !! final_at = Some {[ "http" := PInt 8080; "https" := PInt 443 ]}
    ∧ warnings w' = [].
Proof.
  apply (resolve_ports_numeric resolve_aliases Example.announcing_task
           1%positive (Example.world_of Example.scheduled Example.declared)
           Example.scheduled Example.declared
           {[ "http" := PInt 8080; "https" := PInt 443 ]}
           ltac:(evaluated) ltac:(evaluated) ltac:(evaluated)).
  intros name port Hname.
  apply lookup_insert_Some in Hname as [[_ <-] | [_ Hname]]; [by eexists |].
  apply lookup_singleton_Some in Hname as [_ <-]. by eexists.
Defined.

(** ** Where an exception comes from *)

Section raises.

Context {TaskConfig MesosJob MesosTaskInstance Ref : Type}.
Context `{!RefOps Ref, !Config TaskConfig MesosJob MesosTaskInstance Ref}.

Implicit Types (assigned_task : AssignedTask TaskConfig).

(** X15: an exception that the instance reader raises is one of
    three that it makes itself (no configuration; a configuration
    that the parser rejected with a [TypeError] or a [ValueError]; a
    ref outside the whitelist) or one that it hands on: from the
    parser, from the membership test, from one of the two decoders or
    from the engine. *)
Theorem resolve_raises_inversion assigned_task e :
  mesos_task_instance_from_assigned_task assigned_task = inl e →
  e = MissingConfigError
  ∨ ∃ thermos_task,
      resolve_thermos_config (task assigned_task) = Some thermos_task
      ∧ ((∃ cause, json_loads thermos_task = inl cause
                   ∧ catches [TypeError; ValueError] cause = true
                   ∧ e = MalformedConfigError cause)
         ∨ (json_loads thermos_task = inl e
            ∧ catches [TypeError; ValueError] e = false)
         ∨ ∃ json_blob,
             json_loads thermos_task = inr json_blob
             ∧ (py_in "instance" json_blob = inl e
                ∨ (py_in "instance" json_blob = inr true
                   ∧ MesosTaskInstance_json_loads thermos_task = inl e)
                ∨ (py_in "instance" json_blob = inr false
                   ∧ (MesosJob_json_loads thermos_task = inl e
                      ∨ ∃ job, MesosJob_json_loads thermos_task = inr job
                          ∧ (task_instance_from_job job (instanceId assigned_task)
                             = inl e
                             ∨ ∃ mti refs,
                                 task_instance_from_job job
                                   (instanceId assigned_task) = inr (mti, refs)
                                 ∧ ¬ Forall whitelisted refs
                                 ∧ e = unexpected_unbound_refs refs))))).
Proof.
  intros Hraise.
  destruct (resolve_thermos_config (task assigned_task))
    as [thermos_task |] eqn:Hcfg; last first.
  { unfold mesos_task_instance_from_assigned_task in Hraise.
    rewrite Hcfg in Hraise. left. by injection Hraise as <-. }
  destruct (decide (thermos_task = "")) as [-> | Hne].
  { unfold mesos_task_instance_from_assigned_task in Hraise.
    rewrite Hcfg in Hraise. left. by injection Hraise as <-. }
  right. exists thermos_task. split; [done |].
  rewrite (resolve_unfold _ _ Hcfg Hne) in Hraise.
  destruct (json_loads thermos_task) as [cause | json_blob] eqn:Hparse.
  { unfold try_except in Hraise.
    destruct (catches [TypeError; ValueError] cause) eqn:Hc;
      cbn in Hraise; injection Hraise as <-.
    - left. by exists cause.
    - right; left. by split. }
  right; right. exists json_blob. split; [done |]. cbn in Hraise.
  destruct (py_in "instance" json_blob) as [e' | [|]] eqn:Hin; cbn in Hraise.
  { left. by injection Hraise as <-. }
  { right; left. by split. }
  right; right. split; [done |].
  destruct (MesosJob_json_loads thermos_task) as [e' | job] eqn:Hjob;
    cbn in Hraise.
  { left. by injection Hraise as <-. }
  right. exists job. split; [done |].
  destruct (task_instance_from_job job (instanceId assigned_task))
    as [e' | [mti refs]] eqn:Hinst; cbn in Hraise.
  { left. by injection Hraise as <-. }
  right. exists mti, refs. split; [done |].
  destruct (decide (Forall whitelisted refs)) as [Hall | Hnot].
  { by rewrite (check_refs_whitelisted _ _ Hall) in Hraise. }
  split; [done |].
  rewrite (check_refs_offending _ _ Hnot) in Hraise.
  by injection Hraise as <-.
Qed.

End raises.

Section binder_raises.

Context {MesosTaskInstance : Type} `{!Announce MesosTaskInstance}.
Variable PortResolver_resolve :
  gmap string port_value → result (gmap string port_value).

(** X16: the binder raises nothing of its own: when its two
    references name dictionaries, an exception that comes out of it
    is the one that the alias resolver raised on the merged
    mapping. *)
Theorem resolve_ports_raises_inversion
    (mesos_task : MesosTaskInstance) (portmap : loc) w scheduled base e w' :
  objs w !! portmap = Some scheduled →
  announced mesos_task w = Some base →
  resolve_ports PortResolver_resolve mesos_task portmap w = (inl e, w') →
  PortResolver_resolve (scheduled ∪ base) = inl e.
Proof.
  intros Hpm Hbase Hraise.
  destruct (PortResolver_resolve (scheduled ∪ base)) as [e' | resolved] eqn:Hres.
  - rewrite (resolve_ports_run_raises _ _ _ _ _ _ _ Hpm Hbase Hres) in Hraise.
    by injection Hraise as <- _.
  - by rewrite (resolve_ports_run _ _ _ _ _ _ _ Hpm Hbase Hres) in Hraise.
Qed.

End binder_raises.

(** The stray ref of section 8, traced back. *)
Lemma resolve_raises_inversion_witness :
  let e := unexpected_unbound_refs (Fake.deferred_refs ++ [Fake.stray_ref])%list in
  ∃ mti refs,
    (inr (mti, refs) : result (string * list Pystachio.Ref))
    = inr (Fake.job_blob, (Fake.deferred_refs ++ [Fake.stray_ref])%list)
    ∧ ¬ Forall whitelisted refs
    ∧ e = unexpected_unbound_refs refs.
Proof.
  intros e.
  destruct (resolve_raises_inversion (RefOps0 := Pystachio.ops)
              (Config0 := Fake.config (Fake.deferred_refs ++ [Fake.stray_ref])%list)
              (Fake.assigned (Some Fake.job_blob)) e ltac:(evaluated))
    as [Hmissing | (thermos_task & [= <-] & Hcase)]; [discriminate Hmissing |].
  destruct Hcase as [(cause & Hparse & _) | [(Hparse & _) | (json_blob & Hparse & Hcase)]];
    [discriminate Hparse | discriminate Hparse |].
  injection Hparse as <-.
  destruct Hcase as [Hin | [(Hin & _) | (_ & Hcase)]];
    [discriminate Hin | discriminate Hin |].
  destruct Hcase as [Hjob | (job & [= <-] & Hcase)]; [discriminate Hjob |].
  destruct Hcase as [Hinst | (mti & refs & Hinst & Hnot & He)]; [discriminate Hinst |].
  exists mti, refs. split; [| by split].
  symmetry. exact Hinst.
Defined.

Lemma resolve_ports_raises_inversion_witness :
  Faulty.cyclic (Example.scheduled ∪ Example.declared)
  = inl (PyExn Exception "Found cycle in portmap!").
Proof.
  destruct (resolve_ports Faulty.cyclic Example.announcing_task 1%positive
              (Example.world_of Example.scheduled Example.declared))
    as [outcome w'] eqn:Hrun.
  assert (Houtcome : outcome = inl (PyExn Exception "Found cycle in portmap!")).
  { apply (f_equal fst) in Hrun. vm_compute in Hrun. by symmetry. }
  subst outcome.
  exact (resolve_ports_raises_inversion Faulty.cyclic Example.announcing_task
           1%positive (Example.world_of Example.scheduled Example.declared)
           Example.scheduled Example.declared _ w'
           ltac:(evaluated) ltac:(evaluated) Hrun).
Defined.
